(** * Bantuan support chat widget: a model of front-end/script.js

    The page script is event driven: every handler runs to completion on
    the one UI thread, and the only suspension points are the two awaits
    of [sendMessageToBackend] and the timers set with setTimeout.  The
    model keeps the script's globals in a record, turns every handler into
    a function on that record, and keeps suspended continuations and
    timers in a queue that the environment resumes.

    Conventions.
    - A JavaScript string is the Rocq [string] of its UTF-8 encoding.
    - What a handler reads from the page around it (location, session
      storage, the clock, Math.random, engine-defined texts) comes in a
      [world] record, one per handler run.
    - Every call of addMessage, showStatusMessage, hideStatusMessage,
      fetch, setTimeout and of the recognizer is also written to an
      [effects] list, in program order, so that ordering can be stated. *)

From Stdlib Require Import String Ascii List ZArith NArith QArith Qround Lia Bool.
From Stdlib Require Import DecimalString.
From stdpp Require Import base list strings.
Import ListNotations.
Open Scope string_scope.
Open Scope list_scope.

(** ** Strings *)

(** The quotation mark that the response templates put around the user's
    words, and the line feed of the export format. *)
Definition dq : string := String (ascii_of_nat 34) EmptyString.
Definition nl : string := String (ascii_of_nat 10) EmptyString.

(** [String.prototype.repeat]. *)
Fixpoint repeat_string (s : string) (n : nat) : string :=
  match n with
  | O => EmptyString
  | S k => s +:+ repeat_string s k
  end.

(** [String.prototype.includes]: [needle] occurs somewhere in [s]. *)
Fixpoint includes (s needle : string) : bool :=
  String.prefix needle s ||
  match s with
  | EmptyString => false
  | String _ t => includes t needle
  end.

(** [String.prototype.slice(0, n)] for a non-negative [n]. *)
Definition slice0 (n : nat) (s : string) : string := String.substring 0 n s.

(** Decimal text of a number, as a template literal prints it. *)
Definition decimal (n : nat) : string := NilEmpty.string_of_uint (Nat.to_uint n).

(** *** Trimming

    [String.prototype.trim] removes WhiteSpace and LineTerminator code
    points from both ends.  In UTF-8 these are
    - one byte: U+0009 to U+000D and U+0020;
    - two bytes: U+00A0 (C2 A0);
    - three bytes: U+1680 (E1 9A 80), U+2000 to U+200A (E2 80 80..8A),
      U+2028, U+2029, U+202F (E2 80 A8, A9, AF), U+205F (E2 81 9F),
      U+3000 (E3 80 80) and U+FEFF (EF BB BF). *)
Definition byte_of (a : ascii) : N := N_of_ascii a.

Definition ws1 (a : ascii) : bool :=
  let x := byte_of a in
  ((9 <=? x) && (x <=? 13) || (x =? 32))%N.

Definition ws2 (a b : ascii) : bool :=
  ((byte_of a =? 194) && (byte_of b =? 160))%N.

Definition ws3 (a b c : ascii) : bool :=
  let x := byte_of a in
  let y := byte_of b in
  let z := byte_of c in
  ((x =? 225) && (y =? 154) && (z =? 128)
   || (x =? 226) && (y =? 128)
      && ((128 <=? z) && (z <=? 138) || (z =? 168) || (z =? 169) || (z =? 175))
   || (x =? 226) && (y =? 129) && (z =? 159)
   || (x =? 227) && (y =? 128) && (z =? 128)
   || (x =? 239) && (y =? 187) && (z =? 191))%N.

(** Drop the white space code points that [l] starts with.  The three
    predicates are parameters so that the same scan, with the byte order
    of each code point mirrored, serves the reversed string. *)
Fixpoint strip (p1 : ascii -> bool) (p2 : ascii -> ascii -> bool)
    (p3 : ascii -> ascii -> ascii -> bool) (l : list ascii) : list ascii :=
  match l with
  | [] => []
  | a :: t1 =>
      if p1 a then strip p1 p2 p3 t1
      else match t1 with
           | [] => l
           | b :: t2 =>
               if p2 a b then strip p1 p2 p3 t2
               else match t2 with
                    | [] => l
                    | c :: t3 => if p3 a b c then strip p1 p2 p3 t3 else l
                    end
           end
  end.

Definition trimStart_bytes (l : list ascii) : list ascii := strip ws1 ws2 ws3 l.

Definition trimEnd_bytes (l : list ascii) : list ascii :=
  rev (strip ws1 (fun a b => ws2 b a) (fun a b c => ws3 c b a) (rev l)).

Definition trim (s : string) : string :=
  string_of_list_ascii (trimEnd_bytes (trimStart_bytes (list_ascii_of_string s))).

(** A byte string cut into code points that the three predicates accept. *)
Inductive Tokens (p1 : ascii -> bool) (p2 : ascii -> ascii -> bool)
    (p3 : ascii -> ascii -> ascii -> bool) : list ascii -> Prop :=
  | tok_nil : Tokens p1 p2 p3 []
  | tok_1 a l : p1 a = true -> Tokens p1 p2 p3 l -> Tokens p1 p2 p3 (a :: l)
  | tok_2 a b l : p2 a b = true -> Tokens p1 p2 p3 l -> Tokens p1 p2 p3 (a :: b :: l)
  | tok_3 a b c l :
      p3 a b c = true -> Tokens p1 p2 p3 l -> Tokens p1 p2 p3 (a :: b :: c :: l).

(** A string made of white space code points only (the empty string
    included). *)
Definition WhiteSpaceOnly : list ascii -> Prop := Tokens ws1 ws2 ws3.

Definition blank (s : string) : Prop := WhiteSpaceOnly (list_ascii_of_string s).

(** ** Values

    The few kinds of JavaScript value that reach the script's string
    positions.  A number is kept as the text ToString gives it; [VMember]
    is a member inherited from Object.prototype (a built-in function, or
    the prototype object itself for the name __proto__). *)
Inductive jsval : Type :=
  | VUndefined
  | VNull
  | VBool (b : bool)
  | VNum (text : string)
  | VStr (s : string)
  | VMember (key : string).

(** ToBoolean, for [x || y] and [if (x)]. *)
Definition truthy (v : jsval) : bool :=
  match v with
  | VUndefined | VNull => false
  | VBool b => b
  | VNum t => negb (String.eqb t "0") && negb (String.eqb t "NaN")
  | VStr s => negb (String.eqb s EmptyString)
  | VMember _ => true
  end.

(** [x || y]. *)
Definition or_else (x y : jsval) : jsval := if truthy x then x else y.

(** [x === s] for a string literal [s]. *)
Definition is_string (x : jsval) (s : string) : bool :=
  match x with
  | VStr t => String.eqb t s
  | _ => false
  end.

(** ** Object literals

    [o[key]] on an object literal finds an own property first and then
    walks to Object.prototype, whose members every object literal
    inherits. *)
Definition object_prototype_names : list string :=
  [ "constructor"; "hasOwnProperty"; "isPrototypeOf"; "propertyIsEnumerable";
    "toLocaleString"; "toString"; "valueOf"; "__defineGetter__";
    "__defineSetter__"; "__lookupGetter__"; "__lookupSetter__"; "__proto__" ].

Definition inherited (key : string) : bool :=
  existsb (String.eqb key) object_prototype_names.

Fixpoint own {A : Type} (o : list (string * A)) (key : string) : option A :=
  match o with
  | [] => None
  | (k, a) :: rest => if String.eqb k key then Some a else own rest key
  end.

Inductive property (A : Type) : Type :=
  | Own (a : A)
  | Inherited (key : string)
  | Missing.
Arguments Own {A} a.
Arguments Inherited {A} key.
Arguments Missing {A}.

Definition get {A : Type} (o : list (string * A)) (key : string) : property A :=
  match own o key with
  | Some a => Own a
  | None => if inherited key then Inherited key else Missing
  end.

(** [o[key]] as a value, for an object literal of strings. *)
Definition get_string (o : list (string * string)) (key : string) : jsval :=
  match get o key with
  | Own s => VStr s
  | Inherited k => VMember k
  | Missing => VUndefined
  end.

(** ** The language registry *)

Definition languages : list (string * string) :=
  [ ("en", "English");
    ("id", "Bahasa Indonesia");
    ("ms", "Bahasa Malaysia");
    ("th", "ไทย (Thai)");
    ("vi", "Tiếng Việt");
    ("tl", "Filipino");
    ("my", "မြန်မာ (Myanmar)");
    ("km", "ខ្មែរ (Khmer)");
    ("lo", "ລາວ (Lao)");
    ("bn", "বাংলা (Bengali)") ].

Definition getLanguageName (code : string) : jsval :=
  or_else (get_string languages code) (VStr "Unknown").

Definition speechCodes : list (string * string) :=
  [ ("en", "en-US"); ("id", "id-ID"); ("ms", "ms-MY"); ("th", "th-TH");
    ("vi", "vi-VN"); ("tl", "tl-PH"); ("my", "my-MM"); ("km", "km-KH");
    ("lo", "lo-LA"); ("bn", "bn-BD") ].

Definition getLanguageCode (code : string) : jsval :=
  or_else (get_string speechCodes code) (VStr "en-US").

Definition placeholders : list (string * string) :=
  [ ("en", "Type your message here... (Press Enter to send)");
    ("id", "Ketik pesan Anda di sini... (Tekan Enter untuk mengirim)");
    ("ms", "Taip mesej anda di sini... (Tekan Enter untuk hantar)");
    ("th", "พิมพ์ข้อความของคุณที่นี่... (กด Enter เพื่อส่ง)");
    ("vi", "Nhập tin nhắn của bạn tại đây... (Nhấn Enter để gửi)");
    ("tl", "I-type ang inyong mensahe dito... (Pindutin ang Enter para ipadala)");
    ("my", "သင့်စာကိုဤနေရာတွင်ရိုက်ပါ... (ပို့ရန် Enter ကိုနှိပ်ပါ)");
    ("km", "បញ្ចូលសាររបស់អ្នកនៅទីនេះ... (ចុច Enter ដើម្បីផ្ញើ)");
    ("lo", "ພິມຂໍ້ຄວາມຂອງທ່ານທີ່ນີ້... (ກົດ Enter ເພື່ອສົ່ງ)");
    ("bn", "এখানে আপনার বার্তা টাইপ করুন... (পাঠাতে Enter চাপুন)") ].

(** [placeholders.en]. *)
Definition placeholder_en : string := "Type your message here... (Press Enter to send)".

(** The right-hand side of the assignment in updateChatPlaceholder. *)
Definition placeholderFor (code : string) : jsval :=
  or_else (get_string placeholders code) (VStr placeholder_en).

(** ** The page around the script *)

Record location : Type := {
  protocol : string;   (* with its colon, as in http: *)
  hostname : string;
  port : string        (* empty for the scheme's default port *)
}.

(** [window.location.origin] for a page loaded over the network. *)
Definition origin (l : location) : string :=
  protocol l +:+ "//" +:+ hostname l +:+
  (if String.eqb (port l) EmptyString then EmptyString else ":" +:+ port l).

Record world : Type := {
  w_location : location;
  w_backendUrl : option string;   (* sessionStorage.getItem('backendUrl') *)
  w_confirm : bool;               (* the answer to confirm(...) *)
  w_time : string;                (* new Date().toLocaleTimeString() *)
  w_datetime : string;            (* new Date().toLocaleString() *)
  w_iso : string;                 (* new Date().toISOString() *)
  w_random : Q;                   (* Math.random(), a number in [0, 1) *)
  w_native : string -> string;    (* how the engine prints an inherited member *)
  w_null_read : string            (* the engine's message for a read on null *)
}.

(** ToString, as a template literal or a DOMString attribute applies it. *)
Definition to_string (w : world) (v : jsval) : string :=
  match v with
  | VUndefined => "undefined"
  | VNull => "null"
  | VBool true => "true"
  | VBool false => "false"
  | VNum t => t
  | VStr s => s
  | VMember k => w_native w k
  end.

(** Assignment to [textContent], a nullable DOMString: undefined and null
    empty the node. *)
Definition text_content (w : world) (v : jsval) : string :=
  match v with
  | VUndefined | VNull => EmptyString
  | _ => to_string w v
  end.

(** ** Endpoint resolution *)

Definition local_backend : string := "http://localhost:5000".
Definition azure_backend : string :=
  "https://bantuan-bjgjgwgrhmcwetah.australiaeast-01.azurewebsites.net".

Definition getApiEndpoint (w : world) : string :=
  let hostname := hostname (w_location w) in
  let protocol := protocol (w_location w) in
  if String.eqb protocol "file:" then local_backend
  else if String.eqb hostname "localhost" || String.eqb hostname "127.0.0.1"
  then local_backend
  else if includes hostname "azurestaticapps.net" then azure_backend
  else match w_backendUrl w with
       | Some backendUrl =>
           if negb (String.eqb backendUrl EmptyString) then backendUrl
           else protocol +:+ "//" +:+ hostname
       | None => protocol +:+ "//" +:+ hostname
       end.

(** ** The chat display and the status notice *)

Inductive sender : Type := user | bot.

(** One [.message] element under chatMessages: the sender it was created
    for (its class), and the text of its sender, time and text parts. *)
Record message : Type := {
  m_class : sender;
  m_sender : string;
  m_time : string;
  m_text : string
}.

Inductive notice_type : Type := success | error | warning | info.

(** [colors[type] || colors.info] in showStatusMessage; every call passes
    one of these four literals, or nothing for info. *)
Definition colors (type : notice_type) : string :=
  match type with
  | success => "var(--success)"
  | error => "var(--error)"
  | warning => "var(--warning)"
  | info => "var(--accent-primary)"
  end.

(** One [.status-message] element of the document. *)
Record status_node : Type := {
  s_id : nat;
  s_text : string;
  s_background : string;
  s_leaving : bool      (* the slideOut animation has been started *)
}.

(** ** Suspended work *)

(** What a timer runs. *)
Inductive callback : Type :=
  | CbHideStatus                 (* hideStatusMessage *)
  | CbRemoveStatus (id : nat)    (* () => statusMessage.remove() *)
  | CbFallback (message : string).
      (* the arrow function in the catch block of sendMessageToBackend;
         the only variable it closes over is [message] *)

(** The reply of the chat service, as far as the script looks at it.  The
    members of a reply object are taken to be JSON scalars. *)
Inductive scalar : Type :=
  | SNull
  | SBool (b : bool)
  | SNum (text : string)
  | SStr (s : string).

Definition of_scalar (x : scalar) : jsval :=
  match x with
  | SNull => VNull
  | SBool b => VBool b
  | SNum t => VNum t
  | SStr s => VStr s
  end.

Inductive json : Type :=
  | JNull
  | JAtom                                   (* a boolean, number, string or array *)
  | JObject (members : list (string * scalar)).

(** What [await response.json()] gives. *)
Inductive body : Type :=
  | Malformed (error_message : string)      (* the promise rejects *)
  | Parsed (data : json).

Record response : Type := {
  status : nat;
  statusText : string;
  r_body : body
}.

(** [response.ok]. *)
Definition ok (r : response) : bool :=
  ((200 <=? status r) && (status r <=? 299))%nat.

(** What [await fetch(...)] gives. *)
Inductive fetch_result : Type :=
  | Rejected (error_message : string)       (* no HTTP response at all *)
  | Fulfilled (r : response).

Inductive task : Type :=
  | TFetch (message : string)               (* suspended at await fetch(...) *)
  | TJson (message : string) (b : body)     (* suspended at await response.json() *)
  | TTimer (delay : nat) (cb : callback).

(** The body of the POST request. *)
Record request : Type := {
  rq_message : string;
  rq_language : string;
  rq_category : string
}.

Inductive effect : Type :=
  | EAppend (m : message)
  | EReplaceLog (ms : list message)
  | EShowStatus (text : string) (type : notice_type)
  | EHideStatus (id : nat)
  | EFetch (url : string) (rq : request)
  | ESetTimeout (delay : nat) (cb : callback)
  | EDownload (filename content : string).

(** ** State *)

Record state : Type := {
  currentLanguage : string;
  currentCategory : string;
  isListening : bool;
  recognition : option string;      (* the recognizer's lang, when there is one *)
  chatMessages : list message;
  inputValue : string;              (* messageInput.value *)
  placeholder : string;             (* messageInput.placeholder *)
  voiceIcon : string;               (* voiceBtn.innerHTML *)
  voiceBackground : string;         (* voiceBtn.style.background *)
  activeButtons : list bool;        (* per category button: class active *)
  statusNodes : list status_node;   (* in document order *)
  nextId : nat;
  pending : list task;
  effects : list effect
}.

Definition set_chatMessages (ms : list message) (st : state) : state :=
  {| currentLanguage := currentLanguage st; currentCategory := currentCategory st;
     isListening := isListening st; recognition := recognition st;
     chatMessages := ms; inputValue := inputValue st;
     placeholder := placeholder st; voiceIcon := voiceIcon st;
     voiceBackground := voiceBackground st; activeButtons := activeButtons st;
     statusNodes := statusNodes st; nextId := nextId st;
     pending := pending st; effects := effects st |}.

Definition set_inputValue (v : string) (st : state) : state :=
  {| currentLanguage := currentLanguage st; currentCategory := currentCategory st;
     isListening := isListening st; recognition := recognition st;
     chatMessages := chatMessages st; inputValue := v;
     placeholder := placeholder st; voiceIcon := voiceIcon st;
     voiceBackground := voiceBackground st; activeButtons := activeButtons st;
     statusNodes := statusNodes st; nextId := nextId st;
     pending := pending st; effects := effects st |}.

Definition set_status (ns : list status_node) (next : nat) (st : state) : state :=
  {| currentLanguage := currentLanguage st; currentCategory := currentCategory st;
     isListening := isListening st; recognition := recognition st;
     chatMessages := chatMessages st; inputValue := inputValue st;
     placeholder := placeholder st; voiceIcon := voiceIcon st;
     voiceBackground := voiceBackground st; activeButtons := activeButtons st;
     statusNodes := ns; nextId := next;
     pending := pending st; effects := effects st |}.

Definition set_pending (ts : list task) (st : state) : state :=
  {| currentLanguage := currentLanguage st; currentCategory := currentCategory st;
     isListening := isListening st; recognition := recognition st;
     chatMessages := chatMessages st; inputValue := inputValue st;
     placeholder := placeholder st; voiceIcon := voiceIcon st;
     voiceBackground := voiceBackground st; activeButtons := activeButtons st;
     statusNodes := statusNodes st; nextId := nextId st;
     pending := ts; effects := effects st |}.

Definition emit (e : effect) (st : state) : state :=
  {| currentLanguage := currentLanguage st; currentCategory := currentCategory st;
     isListening := isListening st; recognition := recognition st;
     chatMessages := chatMessages st; inputValue := inputValue st;
     placeholder := placeholder st; voiceIcon := voiceIcon st;
     voiceBackground := voiceBackground st; activeButtons := activeButtons st;
     statusNodes := statusNodes st; nextId := nextId st;
     pending := pending st; effects := effects st ++ [e] |}.

Definition set_session (language category : string) (st : state) : state :=
  {| currentLanguage := language; currentCategory := category;
     isListening := isListening st; recognition := recognition st;
     chatMessages := chatMessages st; inputValue := inputValue st;
     placeholder := placeholder st; voiceIcon := voiceIcon st;
     voiceBackground := voiceBackground st; activeButtons := activeButtons st;
     statusNodes := statusNodes st; nextId := nextId st;
     pending := pending st; effects := effects st |}.

Definition set_voice (listening : bool) (icon background : string) (st : state) : state :=
  {| currentLanguage := currentLanguage st; currentCategory := currentCategory st;
     isListening := listening; recognition := recognition st;
     chatMessages := chatMessages st; inputValue := inputValue st;
     placeholder := placeholder st; voiceIcon := icon;
     voiceBackground := background; activeButtons := activeButtons st;
     statusNodes := statusNodes st; nextId := nextId st;
     pending := pending st; effects := effects st |}.

Definition set_controls (lang : option string) (ph : string) (buttons : list bool)
    (st : state) : state :=
  {| currentLanguage := currentLanguage st; currentCategory := currentCategory st;
     isListening := isListening st; recognition := lang;
     chatMessages := chatMessages st; inputValue := inputValue st;
     placeholder := ph; voiceIcon := voiceIcon st;
     voiceBackground := voiceBackground st; activeButtons := buttons;
     statusNodes := statusNodes st; nextId := nextId st;
     pending := pending st; effects := effects st |}.

(** ** Display primitives *)

Definition addMessage (w : world) (sender : sender) (text : jsval) (st : state) : state :=
  let m := {| m_class := sender;
              m_sender := match sender with bot => "Bantuan Bot" | user => "You" end;
              m_time := w_time w;
              m_text := text_content w text |} in
  emit (EAppend m) (set_chatMessages (chatMessages st ++ [m]) st).

Definition setTimeout (cb : callback) (delay : nat) (st : state) : state :=
  emit (ESetTimeout delay cb) (set_pending (pending st ++ [TTimer delay cb]) st).

(** The first status element of the document, if any, is removed and a
    new one is put at the end of the body. *)
Definition showStatusMessage (message : string) (type : notice_type) (st : state) : state :=
  let kept := match statusNodes st with
              | [] => []
              | _existingStatus :: rest => rest
              end in
  let statusDiv := {| s_id := nextId st; s_text := message;
                      s_background := colors type; s_leaving := false |} in
  emit (EShowStatus message type)
       (set_status (kept ++ [statusDiv]) (S (nextId st)) st).

(** The first status element, if any, starts to slide out and is removed
    300 ms later. *)
Definition hideStatusMessage (st : state) : state :=
  match statusNodes st with
  | [] => st
  | statusMessage :: rest =>
      let leaving := {| s_id := s_id statusMessage; s_text := s_text statusMessage;
                        s_background := s_background statusMessage;
                        s_leaving := true |} in
      setTimeout (CbRemoveStatus (s_id statusMessage)) 300
        (emit (EHideStatus (s_id statusMessage))
           (set_status (leaving :: rest) (nextId st) st))
  end.

(** [statusMessage.remove()], for the element a timer closed over. *)
Definition removeStatus (id : nat) (st : state) : state :=
  set_status (filter (fun n => negb (Nat.eqb (s_id n) id)) (statusNodes st))
             (nextId st) st.

(** ** The fallback responder *)

Definition quoted (s : string) : string := dq +:+ s +:+ dq.

Definition general_responses (userMessage languageName : string) : list string :=
  [ "I understand you need help. Based on your message " +:+ quoted userMessage
      +:+ ", I'm here to assist you. What specific issue are you experiencing?";
    "Thank you for reaching out! I've noted your concern about "
      +:+ quoted userMessage +:+ ". Let me help you resolve this step by step.";
    "I see you mentioned " +:+ quoted userMessage +:+ ". I'm processing this in "
      +:+ languageName +:+ " and will provide the best assistance possible." ].

Definition technical_responses (userMessage : string) : list string :=
  [ "I can help with technical issues. Regarding " +:+ quoted userMessage
      +:+ ", let me walk you through some troubleshooting steps.";
    "Technical support activated! For the issue " +:+ quoted userMessage
      +:+ ", I recommend we start with basic diagnostics.";
    "I understand you're experiencing technical difficulties with "
      +:+ quoted userMessage +:+ ". Let's solve this together." ].

Definition account_responses (userMessage : string) : list string :=
  [ "I can assist with account-related inquiries. About " +:+ quoted userMessage
      +:+ ", I'll need to verify some information first.";
    "For account issues like " +:+ quoted userMessage
      +:+ ", I can guide you through the resolution process securely.";
    "Account support here! I see your concern about " +:+ quoted userMessage
      +:+ ". Let me help you with that." ].

Definition billing_responses (userMessage : string) : list string :=
  [ "I can help with billing questions. Regarding " +:+ quoted userMessage
      +:+ ", let me provide you with the relevant information.";
    "For billing inquiries about " +:+ quoted userMessage
      +:+ ", I can assist you with explanations and next steps.";
    "Billing support activated! I understand your question about "
      +:+ quoted userMessage +:+ ". Let me clarify this for you." ].

(** The object literal [responses], built afresh on every call from the
    message and from the name of the language current at that moment. *)
Definition responses (w : world) (userMessage : string) (st : state)
    : list (string * list string) :=
  [ ("general",
     general_responses userMessage (to_string w (getLanguageName (currentLanguage st))));
    ("technical", technical_responses userMessage);
    ("account", account_responses userMessage);
    ("billing", billing_responses userMessage) ].

(** [Math.floor(Math.random() * length)], with the product taken exactly.
    The script multiplies in binary64 and rounds the product: next to a
    multiple of 1/length the two can pick neighbouring elements. *)
Definition random_index (r : Q) (length : nat) : Z :=
  Qfloor (r * inject_Z (Z.of_nat length)).

(** [array[i]]: undefined outside the array. *)
Definition element (array : list string) (i : Z) : jsval :=
  if (i <? 0)%Z then VUndefined
  else match array !! Z.to_nat i with
       | Some s => VStr s
       | None => VUndefined
       end.

(** [responses[currentCategory] || responses.general], then the random
    pick.  An array is truthy; so is an inherited member, which is a
    function (or, for __proto__, the prototype object): its length is 0,
    1, 2 or undefined, the computed index is 0, 1 or NaN, and it has no
    property of that name, so the pick is undefined. *)
Definition generateBotResponse (w : world) (userMessage : string) (st : state) : jsval :=
  let responses := responses w userMessage st in
  let categoryResponses :=
    match get responses (currentCategory st) with
    | Missing => get responses "general"
    | found => found
    end in
  match categoryResponses with
  | Own array => element array (random_index (w_random w) (length array))
  | Inherited _ | Missing => VUndefined
  end.

(** ** Sending a message *)

(** How a stretch of the try block of sendMessageToBackend ends. *)
Inductive completion : Type :=
  | Normal (st : state)
  | Throw (error_message : string) (st : state).

(** From [await fetch(...)] to [await response.json()]: either an error is
    thrown, or the body is awaited. *)
Definition try_fetch (r : fetch_result) : string + body :=
  match r with
  | Rejected e => inl e
  | Fulfilled response =>
      if negb (ok response)
      then inl ("API error: " +:+ decimal (status response) +:+ " "
                +:+ statusText response)
      else inr (r_body response)
  end.

(** [data.name], for the three names the script reads. *)
Definition member (data : json) (name : string) : jsval :=
  match data with
  | JNull => VUndefined       (* not reached: the read on null throws *)
  | JAtom => VUndefined
  | JObject members =>
      match get members name with
      | Own x => of_scalar x
      | Inherited k => VMember k
      | Missing => VUndefined
      end
  end.

(** From [await response.json()] to the end of the try block. *)
Definition try_json (w : world) (b : body) (st : state) : completion :=
  match b with
  | Malformed e => Throw e st
  | Parsed JNull => Throw (w_null_read w) st
  | Parsed data =>
      if is_string (member data "status") "success"
      then Normal (addMessage w bot (member data "response") (hideStatusMessage st))
      else Throw (to_string w (or_else (member data "error")
                                       (VStr "Unknown error from API"))) st
  end.

(** The catch block. *)
Definition catch_block (message error_message : string) (st : state) : state :=
  setTimeout (CbFallback message) 1000
    (showStatusMessage ("Error: " +:+ error_message) error (hideStatusMessage st)).

(** The try block from the first await on, when nothing else runs between
    its two awaits. *)
Definition try_block (w : world) (r : fetch_result) (st : state) : completion :=
  match try_fetch r with
  | inl e => Throw e st
  | inr b => try_json w b st
  end.

Definition suspend (t : task) (st : state) : state :=
  set_pending (pending st ++ [t]) st.

(** sendMessageToBackend up to its first await: the request is issued. *)
Definition sendMessageToBackend (w : world) (message : string) (st : state) : state :=
  let apiEndpoint := getApiEndpoint w in
  let fullUrl := apiEndpoint +:+ "/api/chat" in
  suspend (TFetch message)
    (emit (EFetch fullUrl {| rq_message := message;
                             rq_language := currentLanguage st;
                             rq_category := currentCategory st |}) st).

(** ... resumed when fetch settles ... *)
Definition resume_fetch (message : string) (r : fetch_result) (st : state) : state :=
  match try_fetch r with
  | inl e => catch_block message e st
  | inr b => suspend (TJson message b) st
  end.

(** ... and when the body has been read. *)
Definition resume_json (w : world) (message : string) (b : body) (st : state) : state :=
  match try_json w b st with
  | Normal st' => st'
  | Throw e st' => catch_block message e st'
  end.

Definition handleSendMessage (w : world) (st : state) : state :=
  let message := trim (inputValue st) in
  if String.eqb message EmptyString then st
  else
    let st := addMessage w user (VStr message) st in
    let st := set_inputValue EmptyString st in
    let st := showStatusMessage "Processing your request..." info st in
    sendMessageToBackend w message st.

(** ** Language and category *)

Definition updateChatPlaceholder (w : world) (st : state) : state :=
  set_controls (recognition st)
    (to_string w (placeholderFor (currentLanguage st)))
    (activeButtons st) st.

Definition handleLanguageChange (w : world) (value : string) (st : state) : state :=
  let st := set_session value (currentCategory st) st in
  let st := updateChatPlaceholder w st in
  let st := match recognition st with
            | Some _ =>
                set_controls (Some (to_string w (getLanguageCode (currentLanguage st))))
                  (placeholder st) (activeButtons st) st
            | None => st
            end in
  addMessage w bot
    (VStr ("Language changed to " +:+ to_string w (getLanguageName (currentLanguage st))
           +:+ ". How can I help you?")) st.

(** [btnElement] is the index of the clicked button among categoryBtns
    and [label] its text. *)
Definition handleCategoryChange (w : world) (category : string) (btnElement : nat)
    (label : string) (st : state) : state :=
  let st := set_session (currentLanguage st) category st in
  let st := set_controls (recognition st) (placeholder st)
              (<[btnElement := true]> (map (fun _ => false) (activeButtons st))) st in
  let categoryName := trim label in
  addMessage w bot
    (VStr ("Switched to " +:+ categoryName +:+ " support. What can I help you with?")) st.

(** ** Clearing and exporting the log *)

(** The one message of the markup that handleClearChat writes; its text
    part keeps the line breaks and indentation of the template. *)
Definition greeting : message :=
  {| m_class := bot;
     m_sender := "Bantuan Bot";
     m_time := "Just now";
     m_text := nl +:+ repeat_string " " 24
       +:+ "Hello! I'm Bantuan, your multi-lingual support assistant. I can help you in multiple ASEAN languages. How can I assist you today?"
       +:+ nl +:+ repeat_string " " 20 |}.

Definition handleClearChat (w : world) (st : state) : state :=
  if w_confirm w then
    let st := emit (EReplaceLog [greeting]) (set_chatMessages [greeting] st) in
    let st := showStatusMessage "Chat cleared successfully" success st in
    setTimeout CbHideStatus 2000 st
  else st.

(** The header that handleDownloadChat starts the log with. *)
Definition chatLog_header (w : world) (st : state) : string :=
  "Bantuan Support Chat Log" +:+ nl
  +:+ "Generated: " +:+ w_datetime w +:+ nl
  +:+ "Language: " +:+ to_string w (getLanguageName (currentLanguage st)) +:+ nl
  +:+ "Category: " +:+ currentCategory st +:+ nl
  +:+ repeat_string "=" 50 +:+ nl +:+ nl.

(** The body of the forEach loop: one message added to the log text. *)
Definition chatLog_add (chatLog : string) (message : message) : string :=
  let sender := m_sender message in
  let time := m_time message in
  let text := m_text message in
  chatLog +:+ "[" +:+ time +:+ "] " +:+ sender +:+ ":" +:+ nl +:+ text +:+ nl +:+ nl.

Definition chatLog_text (w : world) (st : state) : string :=
  fold_left chatLog_add (chatMessages st) (chatLog_header w st).

Definition download_name (w : world) : string :=
  "bantuan-chat-" +:+ slice0 10 (w_iso w) +:+ ".txt".

Definition handleDownloadChat (w : world) (st : state) : state :=
  let chatLog := chatLog_text w st in
  let st := emit (EDownload (download_name w) chatLog) st in
  let st := showStatusMessage "Chat log downloaded successfully" success st in
  setTimeout CbHideStatus 2000 st.

(** ** Speech recognition callbacks *)

(** The markup of an icon, as assigned to [voiceBtn.innerHTML]. *)
Definition icon (classes : string) : string :=
  "<i class=" +:+ quoted classes +:+ "></i>".

Definition onstart (st : state) : state :=
  let st := set_voice true (icon "fas fa-stop") "var(--error)" st in
  showStatusMessage "Listening... Speak now" info st.

Definition onresult (transcript : string) (st : state) : state :=
  set_inputValue transcript st.

Definition onend (st : state) : state :=
  let st := set_voice false (icon "fas fa-microphone") EmptyString st in
  hideStatusMessage st.

Definition onerror (st : state) : state :=
  let st := showStatusMessage "Voice recognition error. Please try again." error st in
  setTimeout CbHideStatus 3000 st.

(** ** The event loop *)

Definition run_callback (w : world) (cb : callback) (st : state) : state :=
  match cb with
  | CbHideStatus => hideStatusMessage st
  | CbRemoveStatus id => removeStatus id st
  | CbFallback message =>
      let fallbackResponse := generateBotResponse w message st in
      addMessage w bot fallbackResponse st
  end.

Inductive event : Type :=
  | Typed (text : string)                   (* the user edits the input field *)
  | Send                                    (* click on send, or Enter *)
  | FetchSettles (k : nat) (r : fetch_result)
  | JsonSettles (k : nat)
  | TimerFires (k : nat)
  | LanguageSelected (value : string)
  | CategoryClicked (category : string) (btn : nat) (label : string)
  | ClearClicked
  | DownloadClicked
  | RecognitionStart
  | RecognitionResult (transcript : string)
  | RecognitionEnd
  | RecognitionError.

(** Take the [k]th suspended task out of the queue. *)
Definition take (k : nat) (st : state) : option (task * state) :=
  match pending st !! k with
  | Some t => Some (t, set_pending (delete k (pending st)) st)
  | None => None
  end.

(** One turn of the event loop.  The model keeps no clock: a pending
    timer may fire at any later turn.  An event that names no pending task
    of its kind changes nothing. *)
Definition step (w : world) (ev : event) (st : state) : state :=
  match ev with
  | Typed text => set_inputValue text st
  | Send => handleSendMessage w st
  | FetchSettles k r =>
      match take k st with
      | Some (TFetch message, st') => resume_fetch message r st'
      | _ => st
      end
  | JsonSettles k =>
      match take k st with
      | Some (TJson message b, st') => resume_json w message b st'
      | _ => st
      end
  | TimerFires k =>
      match take k st with
      | Some (TTimer _ cb, st') => run_callback w cb st'
      | _ => st
      end
  | LanguageSelected value => handleLanguageChange w value st
  | CategoryClicked category btn label => handleCategoryChange w category btn label st
  | ClearClicked => handleClearChat w st
  | DownloadClicked => handleDownloadChat w st
  | RecognitionStart => onstart st
  | RecognitionResult transcript => onresult transcript st
  | RecognitionEnd => onend st
  | RecognitionError => onerror st
  end.

Fixpoint run (evs : list (world * event)) (st : state) : state :=
  match evs with
  | [] => st
  | (w, ev) :: rest => run rest (step w ev st)
  end.

(** ** Start-up

    The globals as the script declares them, over the messages, category
    buttons and voice button that the page markup brings, followed by
    what initializeApp does to them. *)
Definition declared (log : list message) (buttons : list bool) : state :=
  {| currentLanguage := "en"; currentCategory := "general";
     isListening := false; recognition := None;
     chatMessages := log; inputValue := EmptyString;
     placeholder := EmptyString; voiceIcon := icon "fas fa-microphone";
     voiceBackground := EmptyString; activeButtons := buttons;
     statusNodes := []; nextId := 0; pending := []; effects := [] |}.

(** Which of the elements that start-up touches the page has. *)
Record elements : Type := {
  has_chatMessages : bool;
  has_messageInput : bool;
  has_voiceBtn : bool
}.

(** setupSpeechRecognition; [None] when it throws.  Where the platform
    offers a recognizer, one is made and given the language.  Where it
    offers none, the voice button is hidden, and that without a test of
    the element: on a page without the button the read of its style
    throws, before anything has been changed. *)
Definition setupSpeechRecognition (w : world) (supported : bool) (page : elements)
    (st : state) : option state :=
  if supported
  then Some (set_controls (Some (to_string w (getLanguageCode (currentLanguage st))))
               (placeholder st) (activeButtons st) st)
  else if has_voiceBtn page then Some st
  else None.

(** initializeApp: the try block attaches the listeners (each behind a
    test of its element), sets up the recognizer and sets the
    placeholder; the catch block logs what was thrown and lets the
    start-up end there.  The placeholder is assigned on the input field,
    so that a missing field throws as well. *)
Definition initializeApp (w : world) (supported : bool) (page : elements)
    (log : list message) (buttons : list bool) : state :=
  let st := declared log buttons in
  match setupSpeechRecognition w supported page st with
  | Some st' => if has_messageInput page then updateChatPlaceholder w st' else st'
  | None => st
  end.

Inductive startup : Type :=
  | ErrorPage                    (* the body is replaced by the error text *)
  | Started (st : state).

(** The DOMContentLoaded listener. *)
Definition DOMContentLoaded (w : world) (supported : bool) (page : elements)
    (log : list message) (buttons : list bool) : startup :=
  if negb (has_chatMessages page) || negb (has_messageInput page) then ErrorPage
  else Started (initializeApp w supported page log buttons).

(** ** The specification's vocabulary

    Definitions written from the words of the specification, to compare
    the script with. *)

(** The specification's resolveLanguage: display name, speech locale and
    placeholder of a language code. *)
Definition resolveLanguage (code : string) : jsval * jsval * jsval :=
  (getLanguageName code, getLanguageCode code, placeholderFor code).

(** The registry's English entry. *)
Definition english_entry : jsval * jsval * jsval :=
  (VStr "English", VStr "en-US", VStr placeholder_en).

(** A reply counts as a success when its HTTP status is in the success
    range and its body is an object whose status member is the string
    success. *)
Definition claimed_success (r : fetch_result) : Prop :=
  exists response data,
    r = Fulfilled response /\ 200 <= status response <= 299 /\
    r_body response = Parsed data /\ member data "status" = VStr "success".

(** The same, said of what the service sent and without the script's own
    reading of it: an HTTP status from 200 to 299 and, as body, a JSON
    object whose own member status is the string success. *)
Definition spec_success (r : fetch_result) : Prop :=
  exists response members,
    r = Fulfilled response /\ 200 <= status response <= 299 /\
    r_body response = Parsed (JObject members) /\
    own members "status" = Some (SStr "success").

(** The text of the reply: the own member response of the body, as a
    text node shows it. *)
Definition spec_reply_text (members : list (string * scalar)) : string :=
  match own members "response" with
  | Some (SStr s) => s
  | Some (SNum t) => t
  | Some (SBool true) => "true"
  | Some (SBool false) => "false"
  | Some SNull | None => EmptyString
  end.

(** The message of a failure, by the kind of failure: no HTTP response,
    an HTTP status outside 200..299, a body that is not JSON, the body
    null, and a body that does not say success (which is reported by its
    own member error, if that is truthy).  [null_read] is the engine's
    message for a read on null. *)
Definition spec_failure_message (null_read : string) (r : fetch_result) : string :=
  match r with
  | Rejected e => e
  | Fulfilled response =>
      if ((status response <? 200) || (299 <? status response))%nat
      then "API error: " +:+ decimal (status response) +:+ " " +:+ statusText response
      else match r_body response with
           | Malformed e => e
           | Parsed JNull => null_read
           | Parsed JAtom => "Unknown error from API"
           | Parsed (JObject members) =>
               match own members "error" with
               | Some (SStr s) =>
                   if String.eqb s EmptyString then "Unknown error from API" else s
               | Some (SNum t) =>
                   if String.eqb t "0" || String.eqb t "NaN"
                   then "Unknown error from API" else t
               | Some (SBool true) => "true"
               | Some (SBool false) | Some SNull | None => "Unknown error from API"
               end
           end
  end.

(** The templates the fallback responder is to choose from: those of the
    category, and those of general for a category without a table. *)
Definition spec_templates (category userMessage languageName : string) : list string :=
  if String.eqb category "technical" then technical_responses userMessage
  else if String.eqb category "account" then account_responses userMessage
  else if String.eqb category "billing" then billing_responses userMessage
  else general_responses userMessage languageName.

(** One turn of the exported log: [timestamp] sender: then the text, then
    a blank line. *)
Definition spec_record (m : message) : string :=
  "[" +:+ m_time m +:+ "] " +:+ m_sender m +:+ ":" +:+ nl +:+ m_text m +:+ nl +:+ nl.

Fixpoint flatten (parts : list string) : string :=
  match parts with
  | [] => EmptyString
  | x :: rest => x +:+ flatten rest
  end.

(** ** What hiding the notice leaves behind *)

(** What a call of hideStatusMessage adds to the effects. *)
Definition hide_effects (st : state) : list effect :=
  match statusNodes st with
  | [] => []
  | statusMessage :: _ =>
      [ EHideStatus (s_id statusMessage);
        ESetTimeout 300 (CbRemoveStatus (s_id statusMessage)) ]
  end.

(** The timer that a call of hideStatusMessage sets. *)
Definition hide_timers (st : state) : list task :=
  match statusNodes st with
  | [] => []
  | statusMessage :: _ => [TTimer 300 (CbRemoveStatus (s_id statusMessage))]
  end.

(** ** Sample data *)

Definition sample_world : world :=
  {| w_location := {| protocol := "https:"; hostname := "support.example.com";
                      port := EmptyString |};
     w_backendUrl := None;
     w_confirm := true;
     w_time := "10:15:00 AM";
     w_datetime := "11/2/2026, 10:15:00 AM";
     w_iso := "2026-11-02T10:15:00.000Z";
     w_random := 1 # 2;
     w_native := fun key => "function " +:+ key +:+ "() { [native code] }";
     w_null_read := "Cannot read properties of null (reading 'status')" |}.

(** The page after start-up, with the greeting in the display and four
    category buttons, the first of them active. *)
Definition sample_elements : elements :=
  {| has_chatMessages := true; has_messageInput := true; has_voiceBtn := true |}.

Definition sample_page : state :=
  initializeApp sample_world true sample_elements [greeting] [true; false; false; false].

(** The same page with a message typed in and a given category active. *)
Definition sample_typed (category : string) : state :=
  set_inputValue "  reset my password " (set_session "en" category sample_page).

(** The sample page after the message has been sent under the account
    category: one request is in flight. *)
Definition sample_sent : state :=
  handleSendMessage sample_world (sample_typed "account").

Definition sample_reply : fetch_result :=
  Fulfilled {| status := 200; statusText := "OK";
               r_body := Parsed (JObject [ ("status", SStr "success");
                                           ("response", SStr "Use the reset link.") ]) |}.

Definition sample_refusal : fetch_result :=
  Fulfilled {| status := 200; statusText := "OK";
               r_body := Parsed (JObject [ ("status", SStr "error");
                                           ("error", SStr "Model overloaded") ]) |}.

Definition sample_unavailable : fetch_result :=
  Fulfilled {| status := 503; statusText := "Service Unavailable";
               r_body := Malformed "Unexpected token < in JSON at position 0" |}.

(** A page served from a port of its own, and a page whose session
    storage holds an empty override. *)
Definition sample_port_world : world :=
  {| w_location := {| protocol := "http:"; hostname := "example.com"; port := "8080" |};
     w_backendUrl := None;
     w_confirm := w_confirm sample_world; w_time := w_time sample_world;
     w_datetime := w_datetime sample_world; w_iso := w_iso sample_world;
     w_random := w_random sample_world; w_native := w_native sample_world;
     w_null_read := w_null_read sample_world |}.

Definition sample_empty_override_world : world :=
  {| w_location := w_location sample_world;
     w_backendUrl := Some EmptyString;
     w_confirm := w_confirm sample_world; w_time := w_time sample_world;
     w_datetime := w_datetime sample_world; w_iso := w_iso sample_world;
     w_random := w_random sample_world; w_native := w_native sample_world;
     w_null_read := w_null_read sample_world |}.

(** The sample page while the recognizer is capturing. *)
Definition sample_listening : state := onstart sample_page.

(** ** The voice button and the keyboard *)

(** What a handler asks of the speech recognizer. *)
Inductive recognizer_call : Type :=
  | RecStart (lang : string)     (* recognition.start(), with the lang set just before *)
  | RecStop.                     (* recognition.stop() *)

(** The click handler of the voice button: the state it leaves and the
    calls it makes on the recognizer.  Without a recognizer it shows a
    notice and returns. *)
Definition toggleVoiceRecognition (w : world) (st : state)
    : state * list recognizer_call :=
  match recognition st with
  | None =>
      let st := showStatusMessage "Voice recognition not supported in this browser"
                  error st in
      (setTimeout CbHideStatus 3000 st, [])
  | Some _ =>
      if isListening st then (st, [RecStop])
      else
        let lang := to_string w (getLanguageCode (currentLanguage st)) in
        (set_controls (Some lang) (placeholder st) (activeButtons st) st,
         [RecStart lang])
  end.

(** The fields of a keyboard event that the script reads. *)
Record key_event : Type := {
  key : string;
  ctrlKey : bool;
  metaKey : bool;
  shiftKey : bool
}.

(** What a keyboard handler did: the state it leaves, whether it called
    preventDefault, and its calls on the recognizer. *)
Record reaction : Type := {
  r_state : state;
  r_prevented : bool;
  r_calls : list recognizer_call
}.

(** The keypress listener of the input field. *)
Definition keypress (w : world) (e : key_event) (st : state) : reaction :=
  if String.eqb (key e) "Enter" && negb (shiftKey e)
  then {| r_state := handleSendMessage w st; r_prevented := true; r_calls := [] |}
  else {| r_state := st; r_prevented := false; r_calls := [] |}.

(** The keydown listener of the document: three tests, one after the
    other.  The last one calls recognition.stop(); were there no
    recognizer, that call would throw at the end of the handler, with
    nothing left to skip. *)
Definition keydown (w : world) (e : key_event) (st : state) : reaction :=
  let clear := (ctrlKey e || metaKey e) && String.eqb (key e) "k" in
  let st1 := if clear then handleClearChat w st else st in
  let download := (ctrlKey e || metaKey e) && String.eqb (key e) "s" in
  let st2 := if download then handleDownloadChat w st1 else st1 in
  let escape := String.eqb (key e) "Escape" && isListening st2 in
  {| r_state := st2;
     r_prevented := clear || download;
     r_calls := if escape
                then match recognition st2 with
                     | Some _ => [RecStop]
                     | None => []
                     end
                else [] |}.

(** ** Every listener of the page *)

Inductive page_event : Type :=
  | Core (ev : event)
  | VoiceClicked
  | KeyDown (e : key_event)
  | KeyPress (e : key_event).

Definition page_step (w : world) (pev : page_event) (st : state) : state :=
  match pev with
  | Core ev => step w ev st
  | VoiceClicked => fst (toggleVoiceRecognition w st)
  | KeyDown e => r_state (keydown w e st)
  | KeyPress e => r_state (keypress w e st)
  end.

Fixpoint page_run (evs : list (world * page_event)) (st : state) : state :=
  match evs with
  | [] => st
  | (w, pev) :: rest => page_run rest (page_step w pev st)
  end.

(** ** Invariants *)

(** At most one notice is on the page, and the identifier kept for the
    next notice is above those in use. *)
Definition notice_ok (st : state) : Prop :=
  length (statusNodes st) <= 1 /\
  Forall (fun n => s_id n < nextId st) (statusNodes st).

(** The session: active language, active category, listening flag. *)
Definition session (st : state) : string * string * bool :=
  (currentLanguage st, currentCategory st, isListening st).

(** [st'] has the display of [st] with at most one more message at its
    end, of the given sender. *)
Definition appends (cls : sender) (st st' : state) : Prop :=
  exists added,
    chatMessages st' = chatMessages st ++ added /\
    length added <= 1 /\
    Forall (fun m => m_class m = cls) added.

(** The events that clear the chat (the clear button or Ctrl/Cmd + k,
    confirmed by the user) and those that submit the input field (the
    send button or Enter without Shift). *)
Definition clears_chat (w : world) (pev : page_event) : bool :=
  w_confirm w &&
  match pev with
  | Core ClearClicked => true
  | KeyDown e => (ctrlKey e || metaKey e) && String.eqb (key e) "k"
  | _ => false
  end.

Definition submits (pev : page_event) : bool :=
  match pev with
  | Core Send => true
  | KeyPress e => String.eqb (key e) "Enter" && negb (shiftKey e)
  | _ => false
  end.

(** The language, and the two controls that are to follow it. *)
Definition controls (st : state) : string * string * option string :=
  (currentLanguage st, placeholder st, recognition st).

(** The placeholder of the input field and the language of the
    recognizer, if there is one, are those of the active language. *)
Definition language_synced (w : world) (st : state) : Prop :=
  placeholder st = to_string w (placeholderFor (currentLanguage st)) /\
  forall lang, recognition st = Some lang ->
               lang = to_string w (getLanguageCode (currentLanguage st)).

(** The response member of the body of a reply, as far as there is one. *)
Definition response_member (r : fetch_result) : jsval :=
  match r with
  | Fulfilled response =>
      match r_body response with
      | Parsed data => member data "response"
      | Malformed _ => VUndefined
      end
  | Rejected _ => VUndefined
  end.



(** ** White space, code point by code point *)

(** The string whose UTF-8 bytes are [bytes]. *)
Definition utf8 (bytes : list N) : string :=
  string_of_list_ascii (map ascii_of_N bytes).

(** The WhiteSpace and LineTerminator code points of ECMAScript, each by
    the bytes of its UTF-8 encoding: U+0009 to U+000D, U+0020, U+00A0,
    U+1680, U+2000 to U+200A, U+2028, U+2029, U+202F, U+205F, U+3000 and
    U+FEFF. *)
Definition white_space : list string :=
  map utf8
    [ [9]; [10]; [11]; [12]; [13]; [32]; [194; 160]; [225; 154; 128];
      [226; 128; 128]; [226; 128; 129]; [226; 128; 130]; [226; 128; 131];
      [226; 128; 132]; [226; 128; 133]; [226; 128; 134]; [226; 128; 135];
      [226; 128; 136]; [226; 128; 137]; [226; 128; 138];
      [226; 128; 168]; [226; 128; 169]; [226; 128; 175];
      [226; 129; 159]; [227; 128; 128]; [239; 187; 191] ]%N.

(** ** Proof steps *)

(** Turn a boolean fact about bytes into comparisons of numbers. *)
Ltac bool_facts H :=
  unfold ws1, ws2, ws3 in H; cbv zeta in H;
  repeat first [ rewrite andb_true_iff in H | rewrite orb_true_iff in H
               | rewrite N.eqb_eq in H | rewrite N.leb_le in H ].

Ltac ws_disjoint :=
  let H := fresh "H" in
  let E := fresh "E" in
  intros H;
  match goal with
  | |- ?b = false => destruct b eqn:E; [exfalso|reflexivity]
  end;
  bool_facts H; bool_facts E; lia.

(** Go through the keys of an object literal, one comparison with [code]
    after the other. *)
Ltac walk_table code :=
  repeat match goal with
         | |- context [String.eqb ?k code] =>
             let E := fresh "E" in
             destruct (String.eqb k code) eqn:E;
             [ try (discriminate || (eexists _, _; repeat split; reflexivity)) | ]
         end.

(** * Properties *)

(** ** Trimming *)

Section Strip.
Variable p1 : ascii -> bool.
Variable p2 : ascii -> ascii -> bool.
Variable p3 : ascii -> ascii -> ascii -> bool.

Lemma Tokens_app l1 l2 :
  Tokens p1 p2 p3 l1 -> Tokens p1 p2 p3 l2 -> Tokens p1 p2 p3 (l1 ++ l2).
Proof.
  induction 1 as [|a l Ha _ IH|a b l Hab _ IH|a b c l Habc _ IH]; intros H2; simpl.
  - exact H2.
  - apply tok_1; auto.
  - apply tok_2; auto.
  - apply tok_3; auto.
Qed.

Lemma strip_cons a t1 :
  strip p1 p2 p3 (a :: t1) =
  if p1 a then strip p1 p2 p3 t1
  else match t1 with
       | [] => a :: t1
       | b :: t2 =>
           if p2 a b then strip p1 p2 p3 t2
           else match t2 with
                | [] => a :: t1
                | c :: t3 => if p3 a b c then strip p1 p2 p3 t3 else a :: t1
                end
       end.
Proof. reflexivity. Qed.

(** The scan only ever removes code points, so what it removed entirely
    was made of them. *)
Lemma strip_nil_Tokens l : strip p1 p2 p3 l = [] -> Tokens p1 p2 p3 l.
Proof.
  remember (length l) as n eqn:Hn. revert l Hn.
  induction n as [n IH] using lt_wf_ind. intros l Hn.
  destruct l as [|a t1]; [constructor|].
  rewrite strip_cons. destruct (p1 a) eqn:Ha.
  { intros H. apply tok_1; [done|].
    apply (IH (length t1)); simpl in *; [lia|done|done]. }
  destruct t1 as [|b t2]; [discriminate|].
  destruct (p2 a b) eqn:Hab.
  { intros H. apply tok_2; [done|].
    apply (IH (length t2)); simpl in *; [lia|done|done]. }
  destruct t2 as [|c t3]; [discriminate|].
  destruct (p3 a b c) eqn:Habc; [|discriminate].
  intros H. apply tok_3; [done|].
  apply (IH (length t3)); simpl in *; [lia|done|done].
Qed.

(** What the scan returns, it returns unchanged when scanned again. *)
Lemma strip_strip l : strip p1 p2 p3 (strip p1 p2 p3 l) = strip p1 p2 p3 l.
Proof.
  remember (length l) as n eqn:Hn. revert l Hn.
  induction n as [n IH] using lt_wf_ind. intros l Hn.
  destruct l as [|a t1]; [reflexivity|].
  rewrite (strip_cons a t1). destruct (p1 a) eqn:Ha.
  { apply (IH (length t1)); simpl in *; [lia|done]. }
  destruct t1 as [|b t2].
  { rewrite strip_cons, Ha. reflexivity. }
  destruct (p2 a b) eqn:Hab.
  { apply (IH (length t2)); simpl in *; [lia|done]. }
  destruct t2 as [|c t3].
  { rewrite strip_cons, Ha, Hab. reflexivity. }
  destruct (p3 a b c) eqn:Habc.
  { apply (IH (length t3)); simpl in *; [lia|done]. }
  rewrite strip_cons, Ha, Hab, Habc. reflexivity.
Qed.

(** No code point is the start of another one. *)
Hypothesis p2_not_p1 : forall a b, p2 a b = true -> p1 a = false.
Hypothesis p3_not_p1 : forall a b c, p3 a b c = true -> p1 a = false.
Hypothesis p3_not_p2 : forall a b c, p3 a b c = true -> p2 a b = false.

Lemma Tokens_strip_nil l : Tokens p1 p2 p3 l -> strip p1 p2 p3 l = [].
Proof.
  induction 1 as [|a l Ha _ IH|a b l Hab _ IH|a b c l Habc _ IH].
  - reflexivity.
  - rewrite strip_cons, Ha. exact IH.
  - rewrite strip_cons, (p2_not_p1 _ _ Hab), Hab. exact IH.
  - rewrite strip_cons, (p3_not_p1 _ _ _ Habc), (p3_not_p2 _ _ _ Habc), Habc. exact IH.
Qed.

(** Scanning the mirrored string with mirrored code points. *)
Lemma Tokens_mirror l :
  Tokens p1 (fun a b => p2 b a) (fun a b c => p3 c b a) l ->
  Tokens p1 p2 p3 (rev l).
Proof.
  induction 1 as [|a l Ha _ IH|a b l Hab _ IH|a b c l Habc _ IH]; simpl.
  - constructor.
  - apply Tokens_app; [exact IH|]. apply tok_1; [exact Ha|constructor].
  - rewrite <- app_assoc. apply Tokens_app; [exact IH|].
    apply tok_2; [exact Hab|constructor].
  - rewrite <- !app_assoc. apply Tokens_app; [exact IH|].
    apply tok_3; [exact Habc|constructor].
Qed.
End Strip.

Lemma ws2_not_ws1 a b : ws2 a b = true -> ws1 a = false.
Proof. ws_disjoint. Qed.

Lemma ws3_not_ws1 a b c : ws3 a b c = true -> ws1 a = false.
Proof. ws_disjoint. Qed.

Lemma ws3_not_ws2 a b c : ws3 a b c = true -> ws2 a b = false.
Proof. ws_disjoint. Qed.

Lemma ws2_end_not_ws1 a b : ws2 b a = true -> ws1 a = false.
Proof. ws_disjoint. Qed.

Lemma ws3_end_not_ws1 a b c : ws3 c b a = true -> ws1 a = false.
Proof. ws_disjoint. Qed.

Lemma ws3_end_not_ws2 a b c : ws3 c b a = true -> ws2 b a = false.
Proof. ws_disjoint. Qed.

Lemma trimStart_blank l : trimStart_bytes l = [] <-> WhiteSpaceOnly l.
Proof.
  split.
  - apply strip_nil_Tokens.
  - apply Tokens_strip_nil;
      [exact ws2_not_ws1 | exact ws3_not_ws1 | exact ws3_not_ws2].
Qed.

Lemma trimEnd_nil l : trimEnd_bytes l = [] -> WhiteSpaceOnly l.
Proof.
  unfold trimEnd_bytes. intros H.
  apply (f_equal (@rev ascii)) in H. rewrite rev_involutive in H. simpl in H.
  apply strip_nil_Tokens, Tokens_mirror in H.
  rewrite rev_involutive in H. exact H.
Qed.

Lemma string_of_list_ascii_empty l :
  string_of_list_ascii l = EmptyString <-> l = [].
Proof. destruct l; simpl; split; intros H; [reflexivity|reflexivity|discriminate|discriminate]. Qed.

(** [trim] gives the empty string exactly for the strings that hold
    nothing but white space. *)
Lemma trim_empty_iff_blank s : trim s = EmptyString <-> blank s.
Proof.
  unfold trim, blank. rewrite string_of_list_ascii_empty.
  set (l := list_ascii_of_string s). split.
  - intros H. apply trimEnd_nil in H.
    apply trimStart_blank.
    apply trimStart_blank in H. unfold trimStart_bytes in *.
    rewrite strip_strip in H. exact H.
  - intros H. apply trimStart_blank in H. rewrite H. reflexivity.
Qed.

(** ** Sending *)

Lemma trim_nonempty_iff s : trim s <> EmptyString <-> ~ blank s.
Proof. by rewrite trim_empty_iff_blank. Qed.

(** C1.  handleSendMessage looks at the trimmed text of the input field.
    When it is not empty, exactly one turn is appended, that of the user
    with the trimmed text, and the request is issued after it: the
    effects of the call are the append, the processing notice and the
    fetch, in this order, with one request left in flight.  When it is
    empty, which is the case exactly for an empty or white-space-only
    input, the call changes nothing at all: no turn and no request. *)
Theorem handleSendMessage_turn_then_fetch (w : world) (st : state) :
  let msg := trim (inputValue st) in
  let turn := {| m_class := user; m_sender := "You";
                 m_time := w_time w; m_text := msg |} in
  let st' := handleSendMessage w st in
  (msg <> EmptyString ->
     chatMessages st' = chatMessages st ++ [turn] /\
     effects st' = effects st ++
       [ EAppend turn;
         EShowStatus "Processing your request..." info;
         EFetch (getApiEndpoint w +:+ "/api/chat")
                {| rq_message := msg; rq_language := currentLanguage st;
                   rq_category := currentCategory st |} ] /\
     pending st' = pending st ++ [TFetch msg]) /\
  (msg = EmptyString -> st' = st) /\
  (msg = EmptyString <-> blank (inputValue st)) /\
  ((exists t, chatMessages st' = chatMessages st ++ [t]) <-> msg <> EmptyString).
Proof.
  intros msg turn st'. subst st'. unfold handleSendMessage.
  fold msg. destruct (String.eqb_spec msg EmptyString) as [E|E].
  - split; [intros H; contradiction|]. split; [reflexivity|].
    split; [apply trim_empty_iff_blank|].
    split; [|intros H; contradiction].
    intros [t Ht]. apply (f_equal (@length message)) in Ht.
    rewrite length_app in Ht. simpl in Ht. lia.
  - assert (chatMessages
              (sendMessageToBackend w msg
                 (showStatusMessage "Processing your request..." info
                    (set_inputValue EmptyString (addMessage w user (VStr msg) st))))
            = chatMessages st ++ [turn]) as Hlog by reflexivity.
    split.
    { intros _. split; [exact Hlog|]. split.
      - simpl. rewrite <- !app_assoc. reflexivity.
      - reflexivity. }
    split; [intros H; contradiction|].
    split; [apply trim_empty_iff_blank|].
    split; [intros _; exact E|]. intros _. exists turn. exact Hlog.
Qed.

Lemma handleSendMessage_sample :
  trim (inputValue (sample_typed "account")) <> EmptyString /\
  chatMessages (handleSendMessage sample_world (sample_typed "account")) =
    [ greeting;
      {| m_class := user; m_sender := "You"; m_time := "10:15:00 AM";
         m_text := "reset my password" |} ].
Proof.
  assert (trim (inputValue (sample_typed "account")) <> EmptyString) as N
    by (vm_compute; discriminate).
  split; [exact N|].
  destruct (handleSendMessage_turn_then_fetch sample_world (sample_typed "account"))
    as [H _].
  destruct (H N) as [Hlog _]. rewrite Hlog. reflexivity.
Defined.

(** ** The remote call *)

Lemma is_string_true x s : is_string x s = true <-> x = VStr s.
Proof.
  destruct x; simpl; try (split; [discriminate|intros H; discriminate]).
  rewrite String.eqb_eq. split; [intros ->; reflexivity|intros [= ->]; reflexivity].
Qed.

Lemma ok_true response : ok response = true <-> 200 <= status response <= 299.
Proof. unfold ok. rewrite andb_true_iff, !Nat.leb_le. reflexivity. Qed.

Lemma try_block_success w r st :
  claimed_success r ->
  exists response data,
    r = Fulfilled response /\ r_body response = Parsed data /\
    try_block w r st =
      Normal (addMessage w bot (member data "response") (hideStatusMessage st)).
Proof.
  intros (response & data & -> & Hok & Hbody & Hstatus).
  exists response, data. split; [reflexivity|]. split; [exact Hbody|].
  unfold try_block, try_fetch. apply ok_true in Hok. rewrite Hok. simpl.
  rewrite Hbody. unfold try_json.
  destruct data as [| |members]; [discriminate|discriminate|].
  apply is_string_true in Hstatus. rewrite Hstatus. reflexivity.
Qed.

Lemma try_block_failure w r st :
  ~ claimed_success r -> exists e, try_block w r st = Throw e st.
Proof.
  intros Hno. unfold try_block, try_fetch.
  destruct r as [e|response]; [by exists e|].
  destruct (ok response) eqn:Hok; simpl; [|by eexists].
  unfold try_json. destruct (r_body response) as [e|data] eqn:Hbody; [by exists e|].
  destruct data as [| |members]; [by eexists|by eexists|].
  destruct (is_string (member (JObject members) "status") "success") eqn:Hs;
    [|by eexists].
  exfalso. apply Hno. exists response, (JObject members).
  split; [reflexivity|]. split; [by apply ok_true|]. split; [exact Hbody|].
  by apply is_string_true.
Qed.

(** *** What the display primitives change *)

Lemma hideStatusMessage_chatMessages st :
  chatMessages (hideStatusMessage st) = chatMessages st.
Proof. unfold hideStatusMessage. by destruct (statusNodes st). Qed.

Lemma hideStatusMessage_effects st :
  effects (hideStatusMessage st) = effects st ++ hide_effects st.
Proof.
  unfold hideStatusMessage, hide_effects. destruct (statusNodes st); simpl.
  - by rewrite app_nil_r.
  - by rewrite <- app_assoc.
Qed.

Lemma hideStatusMessage_pending st :
  pending (hideStatusMessage st) = pending st ++ hide_timers st.
Proof.
  unfold hideStatusMessage, hide_timers. destruct (statusNodes st); simpl.
  - by rewrite app_nil_r.
  - reflexivity.
Qed.

Lemma hideStatusMessage_session st :
  currentCategory (hideStatusMessage st) = currentCategory st /\
  currentLanguage (hideStatusMessage st) = currentLanguage st /\
  isListening (hideStatusMessage st) = isListening st.
Proof. unfold hideStatusMessage. by destruct (statusNodes st). Qed.

Lemma catch_block_chatMessages m e st :
  chatMessages (catch_block m e st) = chatMessages st.
Proof. unfold catch_block. simpl. apply hideStatusMessage_chatMessages. Qed.

Lemma catch_block_effects m e st :
  effects (catch_block m e st) =
  effects st ++ hide_effects st ++
    [EShowStatus ("Error: " +:+ e) error; ESetTimeout 1000 (CbFallback m)].
Proof.
  unfold catch_block. simpl effects.
  rewrite hideStatusMessage_effects, <- !app_assoc. reflexivity.
Qed.

Lemma catch_block_pending m e st :
  pending (catch_block m e st) =
  pending st ++ hide_timers st ++ [TTimer 1000 (CbFallback m)].
Proof.
  unfold catch_block. simpl pending.
  rewrite hideStatusMessage_pending, <- app_assoc. reflexivity.
Qed.

Lemma catch_block_session m e st :
  currentCategory (catch_block m e st) = currentCategory st /\
  currentLanguage (catch_block m e st) = currentLanguage st.
Proof.
  unfold catch_block. simpl.
  destruct (hideStatusMessage_session st) as (H1 & H2 & _). by rewrite H1, H2.
Qed.

(** *** The event loop *)

Lemma take_Some st k t :
  pending st !! k = Some t ->
  take k st = Some (t, set_pending (delete k (pending st)) st).
Proof. unfold take. by intros ->. Qed.

(** A request that settles, followed by the end of the read of its body
    when the script went on to read it, runs the try block and, on a
    throw, the catch block. *)
Lemma run_remote_call w1 w2 st k m r :
  pending st !! k = Some (TFetch m) ->
  run [(w1, FetchSettles k r); (w2, JsonSettles (length (pending st) - 1))] st =
  match try_block w2 r (set_pending (delete k (pending st)) st) with
  | Normal st' => st'
  | Throw e st' => catch_block m e st'
  end.
Proof.
  intros Hk. cbn [run step]. rewrite (take_Some _ _ _ Hk).
  assert (length (delete k (pending st)) = length (pending st) - 1) as Hlen
    by (apply length_delete; rewrite Hk; by eexists).
  rewrite <- Hlen. clear Hlen.
  set (st0 := set_pending (delete k (pending st)) st).
  unfold resume_fetch, try_block. destruct (try_fetch r) as [e|b].
  - assert (exists d cb, pending (catch_block m e st0) !! length (delete k (pending st))
                         = Some (TTimer d cb)) as (d & cb & Hj).
    { rewrite catch_block_pending. unfold hide_timers. subst st0. simpl.
      destruct (statusNodes st); simpl; do 2 eexists; by apply list_lookup_middle. }
    rewrite (take_Some _ _ _ Hj). reflexivity.
  - assert (pending (suspend (TJson m b) st0) !! length (delete k (pending st))
            = Some (TJson m b)) as Hj by (by apply list_lookup_middle).
    rewrite (take_Some _ _ _ Hj). unfold resume_json.
    replace (set_pending _ (suspend (TJson m b) st0)) with st0; [reflexivity|].
    unfold suspend, set_pending. subst st0. simpl.
    rewrite (delete_middle (delete k (pending st)) [] (TJson m b)), app_nil_r.
    reflexivity.
Qed.

Lemma member_own members name :
  inherited name = false ->
  member (JObject members) name =
  match own members name with
  | Some x => of_scalar x
  | None => VUndefined
  end.
Proof.
  intros Hname. unfold member, get. destruct (own members name); [reflexivity|].
  by rewrite Hname.
Qed.

Lemma spec_success_decidable r : spec_success r \/ ~ spec_success r.
Proof.
  destruct r as [e|response]; [right; intros (? & ? & [=] & _)|].
  destruct (ok response) eqn:Hok.
  2:{ right. intros (? & ? & [= <-] & H & _). apply ok_true in H. congruence. }
  apply ok_true in Hok.
  destruct (r_body response) as [e|[| |members]] eqn:Hbody;
    try (right; intros (? & ? & [= <-] & _ & H & _); congruence).
  destruct (own members "status") as [[|b|t|s]|] eqn:Hs;
    try (right; intros (? & ? & [= <-] & _ & H1 & H2); rewrite Hbody in H1;
         injection H1 as <-; congruence).
  destruct (String.eqb_spec s "success") as [->|Hne].
  - left. by exists response, members.
  - right. intros (? & ? & [= <-] & _ & H1 & H2). rewrite Hbody in H1.
    injection H1 as <-. congruence.
Qed.

(** The try block on a success: the turn of the bot is appended. *)
Lemma try_block_reply w response members st :
  200 <= status response <= 299 ->
  r_body response = Parsed (JObject members) ->
  own members "status" = Some (SStr "success") ->
  exists v,
    try_block w (Fulfilled response) st = Normal (addMessage w bot v (hideStatusMessage st)) /\
    text_content w v = spec_reply_text members.
Proof.
  intros Hok Hbody Hs. apply ok_true in Hok.
  exists (member (JObject members) "response"). split.
  - unfold try_block, try_fetch. rewrite Hok. cbn [negb]. rewrite Hbody.
    unfold try_json. rewrite (member_own members "status" eq_refl), Hs. reflexivity.
  - rewrite (member_own members "response" eq_refl). unfold spec_reply_text.
    by destruct (own members "response") as [[|[|]|t|s]|].
Qed.

(** The try block on anything else: the error that reaches the catch
    block. *)
Lemma try_block_throws w r st :
  ~ spec_success r -> try_block w r st = Throw (spec_failure_message (w_null_read w) r) st.
Proof.
  intros Hno. unfold try_block, try_fetch, spec_failure_message.
  destruct r as [e|response]; [reflexivity|].
  assert (((status response <? 200) || (299 <? status response))%nat = negb (ok response))
    as -> by (unfold ok; rewrite negb_andb, <- !Nat.ltb_antisym; reflexivity).
  destruct (ok response) eqn:Hok; [|reflexivity]. cbn [negb].
  apply ok_true in Hok.
  destruct (r_body response) as [e|[| |members]] eqn:Hbody; try reflexivity.
  unfold try_json.
  rewrite (member_own members "status" eq_refl), (member_own members "error" eq_refl).
  destruct (own members "status") as [[|b|t|s]|] eqn:Hs; cbn [of_scalar is_string].
  4:{ destruct (String.eqb_spec s "success") as [->|_].
      - exfalso. apply Hno. by exists response, members.
      - clear Hs.
        destruct (own members "error") as [[|[|]|t|e]|]; unfold or_else, truthy;
          cbn [of_scalar to_string]; try reflexivity.
        + by destruct (String.eqb t "0"), (String.eqb t "NaN").
        + by destruct (String.eqb e EmptyString). }
  all: clear Hs;
    destruct (own members "error") as [[|[|]|t'|e]|]; unfold or_else, truthy;
      cbn [of_scalar to_string]; try reflexivity;
      [by destruct (String.eqb t' "0"), (String.eqb t' "NaN")
      |by destruct (String.eqb e EmptyString)].
Qed.

(** C2.  A request in flight settles, and the read of its body ends (the
    read, when the script gets to it, waits at the end of the queue).  If
    the HTTP status is from 200 to 299 and the body is a JSON object
    whose own member status is the string success, the script appends
    one bot turn whose text is the own member response of the body, and
    shows no failure notice.  In every other case (no HTTP response,
    another HTTP status, a body that is not JSON, or a body without that
    status) it appends nothing, shows the notice of type error that
    reads Error: followed by the message of that failure, and sets the
    timer of the fallback.  A turn is appended exactly in the first
    case. *)
Theorem remote_call_success_iff (w1 w2 : world) (st : state) (k : nat) (m : string)
    (r : fetch_result) :
  pending st !! k = Some (TFetch m) ->
  let st' := run [(w1, FetchSettles k r);
                  (w2, JsonSettles (length (pending st) - 1))] st in
  let bot_turn text :=
    {| m_class := bot; m_sender := "Bantuan Bot"; m_time := w_time w2;
       m_text := text |} in
  (forall response members,
     r = Fulfilled response ->
     200 <= status response <= 299 ->
     r_body response = Parsed (JObject members) ->
     own members "status" = Some (SStr "success") ->
     chatMessages st' = chatMessages st ++ [bot_turn (spec_reply_text members)] /\
     effects st' = effects st ++ hide_effects st
                   ++ [EAppend (bot_turn (spec_reply_text members))]) /\
  (~ spec_success r ->
     chatMessages st' = chatMessages st /\
     effects st' = effects st ++ hide_effects st ++
       [ EShowStatus ("Error: " +:+ spec_failure_message (w_null_read w2) r) error;
         ESetTimeout 1000 (CbFallback m) ]) /\
  ((exists t, chatMessages st' = chatMessages st ++ [t]) <-> spec_success r).
Proof.
  intros Hk st' bot_turn. subst st' bot_turn.
  rewrite (run_remote_call _ _ _ _ _ _ Hk).
  set (st0 := set_pending (delete k (pending st)) st).
  assert (forall response members,
            r = Fulfilled response ->
            200 <= status response <= 299 ->
            r_body response = Parsed (JObject members) ->
            own members "status" = Some (SStr "success") ->
            chatMessages match try_block w2 r st0 with
                         | Normal st' => st'
                         | Throw e st' => catch_block m e st'
                         end
            = chatMessages st ++
                [{| m_class := bot; m_sender := "Bantuan Bot"; m_time := w_time w2;
                    m_text := spec_reply_text members |}] /\
            effects match try_block w2 r st0 with
                    | Normal st' => st'
                    | Throw e st' => catch_block m e st'
                    end
            = effects st ++ hide_effects st ++
                [EAppend {| m_class := bot; m_sender := "Bantuan Bot";
                            m_time := w_time w2;
                            m_text := spec_reply_text members |}])
    as Hyes.
  { intros response members -> Hok Hbody Hs.
    destruct (try_block_reply w2 response members st0 Hok Hbody Hs) as (v & -> & Hv).
    unfold addMessage. cbn [chatMessages effects emit set_chatMessages].
    rewrite Hv, hideStatusMessage_chatMessages, hideStatusMessage_effects, <- app_assoc.
    by split. }
  assert (~ spec_success r ->
          chatMessages match try_block w2 r st0 with
                       | Normal st' => st'
                       | Throw e st' => catch_block m e st'
                       end = chatMessages st /\
          effects match try_block w2 r st0 with
                  | Normal st' => st'
                  | Throw e st' => catch_block m e st'
                  end
          = effects st ++ hide_effects st ++
              [ EShowStatus ("Error: " +:+ spec_failure_message (w_null_read w2) r) error;
                ESetTimeout 1000 (CbFallback m) ])
    as Hno.
  { intros C. rewrite (try_block_throws w2 r st0 C). split.
    - by rewrite catch_block_chatMessages.
    - by rewrite catch_block_effects. }
  split; [exact Hyes|]. split; [exact Hno|]. split.
  - intros [t Ht]. destruct (spec_success_decidable r) as [C|C]; [exact C|].
    destruct (Hno C) as (Hlog & _). rewrite Hlog in Ht.
    apply (f_equal (@length message)) in Ht. rewrite length_app in Ht.
    simpl in Ht. lia.
  - intros (response & members & Hr & Hok & Hbody & Hs).
    destruct (Hyes response members Hr Hok Hbody Hs) as (Hlog & _).
    eexists. exact Hlog.
Qed.

Lemma remote_call_sample :
  chatMessages (run [(sample_world, FetchSettles 0 sample_reply);
                     (sample_world, JsonSettles (length (pending sample_sent) - 1))]
                    sample_sent)
  = chatMessages sample_sent ++
      [ {| m_class := bot; m_sender := "Bantuan Bot"; m_time := w_time sample_world;
           m_text := "Use the reset link." |} ] /\
  effects (run [(sample_world, FetchSettles 0 sample_refusal);
                (sample_world, JsonSettles (length (pending sample_sent) - 1))]
               sample_sent)
  = effects sample_sent ++ hide_effects sample_sent ++
      [ EShowStatus "Error: Model overloaded" error;
        ESetTimeout 1000 (CbFallback "reset my password") ] /\
  chatMessages (run [(sample_world, FetchSettles 0 sample_refusal);
                     (sample_world, JsonSettles (length (pending sample_sent) - 1))]
                    sample_sent)
  = chatMessages sample_sent.
Proof.
  split.
  - destruct (remote_call_success_iff sample_world sample_world sample_sent 0
                "reset my password" sample_reply eq_refl) as (Hyes & _ & _).
    refine (proj1 (Hyes _ _ eq_refl _ eq_refl eq_refl)). simpl. lia.
  - destruct (remote_call_success_iff sample_world sample_world sample_sent 0
                "reset my password" sample_refusal eq_refl) as (_ & Hno & _).
    assert (~ spec_success sample_refusal) as C.
    { intros (response & members & [= <-] & _ & [= <-] & Hs). discriminate Hs. }
    destruct (Hno C) as [Hlog Heff]. split; [exact Heff|exact Hlog].
Defined.

(** The notice that each kind of failure leaves on the page. *)
Example notice_after_network_failure :
  map s_text (statusNodes (run [(sample_world, FetchSettles 0 (Rejected "Failed to fetch"))]
                               sample_sent))
  = ["Error: Failed to fetch"].
Proof. reflexivity. Qed.

Example notice_after_http_error :
  map s_text (statusNodes (run [(sample_world, FetchSettles 0 sample_unavailable)]
                               sample_sent))
  = ["Error: API error: 503 Service Unavailable"].
Proof. reflexivity. Qed.

Example notice_after_refusal :
  map s_text (statusNodes (run [(sample_world, FetchSettles 0 sample_refusal);
                                (sample_world, JsonSettles 0)] sample_sent))
  = ["Error: Model overloaded"].
Proof. reflexivity. Qed.

Example notice_after_empty_object :
  map s_text (statusNodes
    (run [(sample_world,
           FetchSettles 0 (Fulfilled {| status := 200; statusText := "OK";
                                        r_body := Parsed (JObject []) |}));
          (sample_world, JsonSettles 0)] sample_sent))
  = ["Error: Unknown error from API"].
Proof. reflexivity. Qed.

(** ** The fallback responder *)

(** With Math.random() in [0, 1) the computed index is inside the array. *)
Lemma random_index_range (r : Q) (n : nat) :
  (0 <= r < 1)%Q -> 0 < n -> (0 <= random_index r n < Z.of_nat n)%Z.
Proof.
  intros [H0 H1] Hn. unfold random_index.
  set (x := (r * inject_Z (Z.of_nat n))%Q).
  assert (0 <= x)%Q as Hx0.
  { apply Qmult_le_0_compat; [exact H0|]. rewrite <- (Zle_Qle 0). lia. }
  assert (x < inject_Z (Z.of_nat n))%Q as Hx1.
  { rewrite <- (Qmult_1_l (inject_Z (Z.of_nat n))). subst x.
    apply Qmult_lt_compat_r; [|exact H1]. rewrite <- (Zlt_Qlt 0). lia. }
  split.
  - rewrite <- (Qfloor_Z 0). by apply Qfloor_resp_le.
  - rewrite Zlt_Qlt. eapply Qle_lt_trans; [apply Qfloor_le|exact Hx1].
Qed.

(** The index is [i] exactly when Math.random() times the length lies in
    [i, i + 1): every template is picked on an interval of the same
    length. *)
Lemma random_index_interval (r : Q) (n : nat) (i : Z) :
  random_index r n = i <->
  (inject_Z i <= r * inject_Z (Z.of_nat n) < inject_Z (i + 1))%Q.
Proof.
  unfold random_index. set (x := (r * inject_Z (Z.of_nat n))%Q). split.
  - intros <-. split; [apply Qfloor_le|apply Qlt_floor].
  - intros [Hlo Hhi]. apply Z.le_antisymm.
    + apply Z.lt_succ_r. rewrite Zlt_Qlt.
      eapply Qle_lt_trans; [apply Qfloor_le|exact Hhi].
    + rewrite <- (Qfloor_Z i). by apply Qfloor_resp_le.
Qed.

Lemma element_in (array : list string) (i : Z) :
  (0 <= i < Z.of_nat (length array))%Z ->
  exists s, element array i = VStr s /\ In s array.
Proof.
  intros [H0 H1]. unfold element.
  destruct (Z.ltb_spec i 0) as [?|_]; [lia|].
  destruct (array !! Z.to_nat i) as [s|] eqn:E.
  - exists s. split; [reflexivity|].
    apply list_elem_of_In, list_elem_of_lookup. by exists (Z.to_nat i).
  - apply lookup_ge_None in E. lia.
Qed.

(** generateBotResponse reads the state through the active category and
    language only. *)
Lemma generateBotResponse_reads w m st1 st2 :
  currentCategory st1 = currentCategory st2 ->
  currentLanguage st1 = currentLanguage st2 ->
  generateBotResponse w m st1 = generateBotResponse w m st2.
Proof.
  intros Hc Hl. unfold generateBotResponse, responses. by rewrite Hc, Hl.
Qed.

(** For a category that names no inherited member, the responder returns
    one of the templates of the category, or of general when the category
    has no table, with the message put in. *)
Lemma generateBotResponse_template w m st :
  inherited (currentCategory st) = false ->
  (0 <= w_random w < 1)%Q ->
  exists t,
    generateBotResponse w m st = VStr t /\
    In t (spec_templates (currentCategory st) m
            (to_string w (getLanguageName (currentLanguage st)))).
Proof.
  intros Hinh Hr. unfold generateBotResponse, responses, get, spec_templates.
  set (name := to_string w (getLanguageName (currentLanguage st))).
  cbn [own]. rewrite Hinh.
  rewrite !(String.eqb_sym (currentCategory st)).
  destruct (String.eqb "general" (currentCategory st)) eqn:Eg.
  { apply String.eqb_eq in Eg. rewrite <- Eg. simpl String.eqb. cbv iota.
    apply element_in. by apply random_index_range; [|simpl; lia]. }
  destruct (String.eqb "technical" (currentCategory st)) eqn:Et.
  { apply element_in. by apply random_index_range; [|simpl; lia]. }
  destruct (String.eqb "account" (currentCategory st)) eqn:Ea.
  { apply element_in. by apply random_index_range; [|simpl; lia]. }
  destruct (String.eqb "billing" (currentCategory st)) eqn:Eb.
  { apply element_in. by apply random_index_range; [|simpl; lia]. }
  cbn [own]. rewrite String.eqb_refl.
  apply element_in. by apply random_index_range; [|simpl; lia].
Qed.

(** ** A failed send, step by step *)

Lemma run_app evs1 evs2 st : run (evs1 ++ evs2) st = run evs2 (run evs1 st).
Proof.
  revert st. induction evs1 as [|[w ev] evs1 IH]; intros st; simpl; [reflexivity|].
  apply IH.
Qed.

Lemma run_cons w ev evs st : run ((w, ev) :: evs) st = run evs (step w ev st).
Proof. reflexivity. Qed.

Lemma run_two e1 e2 evs st : run (e1 :: e2 :: evs) st = run evs (run [e1; e2] st).
Proof. destruct e1, e2. reflexivity. Qed.

Lemma run_nil st : run [] st = st.
Proof. reflexivity. Qed.

(** After a send that went out: the user's turn is in the display, the
    request is last in the queue, a notice is on the page, and the
    session is as before. *)
Lemma handleSendMessage_state w st :
  trim (inputValue st) <> EmptyString ->
  let turn := {| m_class := user; m_sender := "You"; m_time := w_time w;
                 m_text := trim (inputValue st) |} in
  chatMessages (handleSendMessage w st) = chatMessages st ++ [turn] /\
  effects (handleSendMessage w st) = effects st ++
    [ EAppend turn;
      EShowStatus "Processing your request..." info;
      EFetch (getApiEndpoint w +:+ "/api/chat")
             {| rq_message := trim (inputValue st);
                rq_language := currentLanguage st;
                rq_category := currentCategory st |} ] /\
  pending (handleSendMessage w st) = pending st ++ [TFetch (trim (inputValue st))] /\
  (exists n rest, statusNodes (handleSendMessage w st) = n :: rest) /\
  currentCategory (handleSendMessage w st) = currentCategory st /\
  currentLanguage (handleSendMessage w st) = currentLanguage st.
Proof.
  intros H turn. unfold handleSendMessage.
  destruct (String.eqb_spec (trim (inputValue st)) EmptyString) as [E|_];
    [contradiction|].
  split; [reflexivity|]. split; [simpl; by rewrite <- !app_assoc|].
  split; [reflexivity|]. split; [|split; reflexivity].
  simpl. destruct (statusNodes st) as [|n0 [|n1 rest]]; simpl; by eexists _, _.
Qed.

(** A request that fails, with a notice on the page when it does. *)
Lemma remote_failure_state w1 w2 st k m r n rest :
  pending st !! k = Some (TFetch m) ->
  ~ claimed_success r ->
  statusNodes st = n :: rest ->
  exists e,
    let st2 := run [(w1, FetchSettles k r);
                    (w2, JsonSettles (length (pending st) - 1))] st in
    chatMessages st2 = chatMessages st /\
    effects st2 = effects st ++
      [ EHideStatus (s_id n); ESetTimeout 300 (CbRemoveStatus (s_id n));
        EShowStatus ("Error: " +:+ e) error; ESetTimeout 1000 (CbFallback m) ] /\
    pending st2 = delete k (pending st) ++
      [ TTimer 300 (CbRemoveStatus (s_id n)); TTimer 1000 (CbFallback m) ] /\
    currentCategory st2 = currentCategory st /\
    currentLanguage st2 = currentLanguage st.
Proof.
  intros Hk Hno Hn. rewrite (run_remote_call _ _ _ _ _ _ Hk).
  destruct (try_block_failure w2 r (set_pending (delete k (pending st)) st) Hno)
    as (e & ->).
  exists e. cbv zeta.
  rewrite catch_block_chatMessages, catch_block_effects, catch_block_pending.
  destruct (catch_block_session m e (set_pending (delete k (pending st)) st))
    as [-> ->].
  unfold hide_effects, hide_timers. simpl. rewrite Hn. by repeat split.
Qed.

Lemma handleCategoryChange_state w category btn label st :
  let turn := {| m_class := bot; m_sender := "Bantuan Bot"; m_time := w_time w;
                 m_text := "Switched to " +:+ trim label
                           +:+ " support. What can I help you with?" |} in
  let st' := handleCategoryChange w category btn label st in
  currentCategory st' = category /\
  currentLanguage st' = currentLanguage st /\
  pending st' = pending st /\
  statusNodes st' = statusNodes st /\
  chatMessages st' = chatMessages st ++ [turn] /\
  effects st' = effects st ++ [EAppend turn].
Proof. by repeat split. Qed.

(** The timer of the fallback fires: one bot turn is appended, made by
    generateBotResponse from the message the timer holds and from the
    state at this moment. *)
Lemma fallback_fires w st k d m :
  pending st !! k = Some (TTimer d (CbFallback m)) ->
  let turn := {| m_class := bot; m_sender := "Bantuan Bot"; m_time := w_time w;
                 m_text := text_content w (generateBotResponse w m st) |} in
  let st' := step w (TimerFires k) st in
  chatMessages st' = chatMessages st ++ [turn] /\
  effects st' = effects st ++ [EAppend turn] /\
  pending st' = delete k (pending st).
Proof. intros Hk. cbn [step]. rewrite (take_Some _ _ _ Hk). by repeat split. Qed.

(** C10.  A message is sent, the category is changed while the request is
    in flight, the request fails, the category is changed again during
    the delay, and the timer of the fallback fires.  The request went out
    with the category of the moment of the send, but the text of the
    fallback turn is what generateBotResponse makes of the sent message in
    a state whose category is the one chosen last: the category of the
    moment the timer fires.  When that category names no inherited
    member, the text is one of its templates (those of general when it has
    no table).  Of the send only the message text is carried over, in the
    callback of the timer. *)
Theorem fallback_reads_category_at_fire
    (w1 w2 w3 w4 w5 w6 : world) (st : state) (r : fetch_result)
    (ca : string) (ba : nat) (la : string) (cb : string) (bb : nat) (lb : string) :
  let m := trim (inputValue st) in
  let k := length (pending st) in
  m <> EmptyString ->
  ~ claimed_success r ->
  let st' := run [ (w1, Send); (w2, CategoryClicked ca ba la);
                   (w3, FetchSettles k r); (w4, JsonSettles k);
                   (w5, CategoryClicked cb bb lb); (w6, TimerFires (S k)) ] st in
  let bot_turn w text := {| m_class := bot; m_sender := "Bantuan Bot";
                            m_time := w_time w; m_text := text |} in
  In (EFetch (getApiEndpoint w1 +:+ "/api/chat")
        {| rq_message := m; rq_language := currentLanguage st;
           rq_category := currentCategory st |}) (effects st') /\
  exists X,
    chatMessages st' = chatMessages st ++
      [ {| m_class := user; m_sender := "You"; m_time := w_time w1; m_text := m |};
        bot_turn w2 ("Switched to " +:+ trim la +:+ " support. What can I help you with?");
        bot_turn w5 ("Switched to " +:+ trim lb +:+ " support. What can I help you with?");
        bot_turn w6 X ] /\
    (forall at_fire,
       currentCategory at_fire = cb -> currentLanguage at_fire = currentLanguage st ->
       X = text_content w6 (generateBotResponse w6 m at_fire)) /\
    (inherited cb = false -> (0 <= w_random w6 < 1)%Q ->
     In X (spec_templates cb m (to_string w6 (getLanguageName (currentLanguage st))))).
Proof.
  intros m k Hm Hr st' bot_turn. subst st'.
  rewrite run_cons, run_cons, run_two, run_cons, run_cons, run_nil.
  change (step w1 Send st) with (handleSendMessage w1 st).
  change (step w2 (CategoryClicked ca ba la)) with (handleCategoryChange w2 ca ba la).
  change (step w5 (CategoryClicked cb bb lb)) with (handleCategoryChange w5 cb bb lb).
  destruct (handleSendMessage_state w1 st Hm)
    as (Hlog1 & Heff1 & Hp1 & (n & rest & Hs1) & Hc1 & Hl1).
  set (st1 := handleSendMessage w1 st) in *.
  destruct (handleCategoryChange_state w2 ca ba la st1)
    as (_ & Hl1' & Hp1' & Hs1' & Hlog1' & Heff1').
  set (st1' := handleCategoryChange w2 ca ba la st1) in *.
  assert (pending st1' !! k = Some (TFetch m)) as Hk.
  { rewrite Hp1', Hp1. by apply list_lookup_middle. }
  assert (k = length (pending st1') - 1) as Hk'.
  { rewrite Hp1', Hp1, length_app. simpl. subst k. lia. }
  rewrite Hs1 in Hs1'.
  destruct (remote_failure_state w3 w4 st1' k m r n rest Hk Hr Hs1')
    as (e & Hlog2 & Heff2 & Hp2 & _ & Hl2).
  rewrite <- Hk' in Hlog2, Heff2, Hp2, Hl2.
  set (st2 := run [(w3, FetchSettles k r); (w4, JsonSettles k)] st1') in *.
  destruct (handleCategoryChange_state w5 cb bb lb st2)
    as (Hc3 & Hl3 & Hp3 & _ & Hlog3 & Heff3).
  set (st3 := handleCategoryChange w5 cb bb lb st2) in *.
  assert (pending st3 = pending st ++
            [TTimer 300 (CbRemoveStatus (s_id n)); TTimer 1000 (CbFallback m)]) as Hp3'.
  { rewrite Hp3, Hp2, Hp1', Hp1. subst k.
    rewrite (delete_middle (pending st) [] (TFetch _)), app_nil_r. reflexivity. }
  assert (pending st3 !! S k = Some (TTimer 1000 (CbFallback m))) as Hfire.
  { rewrite Hp3'.
    change (pending st ++ [TTimer 300 (CbRemoveStatus (s_id n)); TTimer 1000 (CbFallback m)])
      with (pending st ++ [TTimer 300 (CbRemoveStatus (s_id n))]
                       ++ [TTimer 1000 (CbFallback m)]).
    rewrite app_assoc. apply list_lookup_middle. rewrite length_app. simpl. subst k. lia. }
  destruct (fallback_fires w6 st3 (S k) 1000 m Hfire) as (Hlog4 & Heff4 & _).
  split.
  { rewrite Heff4, Heff3, Heff2, Heff1', Heff1. rewrite !in_app_iff. simpl. tauto. }
  exists (text_content w6 (generateBotResponse w6 m st3)). split; [|split].
  - rewrite Hlog4, Hlog3, Hlog2, Hlog1', Hlog1, <- !app_assoc. reflexivity.
  - intros at_fire Hcat Hlang. f_equal. apply generateBotResponse_reads.
    + by rewrite Hc3, Hcat.
    + by rewrite Hl3, Hl2, Hl1', Hl1, Hlang.
  - intros Hinh Hrange.
    destruct (generateBotResponse_template w6 m st3) as (t & -> & Hin);
      [by rewrite Hc3|exact Hrange|].
    rewrite Hc3, Hl3, Hl2, Hl1', Hl1 in Hin. exact Hin.
Qed.

Lemma sample_random_in_range : (0 <= w_random sample_world < 1)%Q.
Proof. split; [discriminate|reflexivity]. Qed.

Lemma fallback_reads_category_at_fire_sample :
  trim (inputValue (sample_typed "account")) <> EmptyString /\
  ~ claimed_success (Rejected "Failed to fetch") /\
  exists X,
    In X (billing_responses "reset my password") /\
    last (chatMessages
            (run [ (sample_world, Send);
                   (sample_world, CategoryClicked "technical" 1 "Technical");
                   (sample_world, FetchSettles 0 (Rejected "Failed to fetch"));
                   (sample_world, JsonSettles 0);
                   (sample_world, CategoryClicked "billing" 3 "Billing");
                   (sample_world, TimerFires 1) ] (sample_typed "account")))
    = Some {| m_class := bot; m_sender := "Bantuan Bot"; m_time := "10:15:00 AM";
              m_text := X |}.
Proof.
  assert (trim (inputValue (sample_typed "account")) <> EmptyString) as Hm
    by (vm_compute; discriminate).
  assert (~ claimed_success (Rejected "Failed to fetch")) as Hr
    by (intros (? & ? & [=] & _)).
  split; [exact Hm|]. split; [exact Hr|].
  destruct (fallback_reads_category_at_fire
              sample_world sample_world sample_world sample_world sample_world
              sample_world (sample_typed "account") (Rejected "Failed to fetch")
              "technical" 1 "Technical" "billing" 3 "Billing" Hm Hr)
    as (_ & X & Hlog & _ & Htemplate).
  exists X. split.
  - apply (Htemplate eq_refl sample_random_in_range).
  - change (length (pending (sample_typed "account"))) with 0 in Hlog.
    rewrite Hlog. rewrite last_app. reflexivity.
Defined.

(** A failed send with nothing else going on: the user's turn, the
    request, the failure notice, the timer, and then one bot turn.  For a
    category that names no inherited member its text is one of the
    templates of the category. *)
Lemma fallback_after_failure (w1 w2 w3 w4 : world) (st : state) (r : fetch_result) :
  let m := trim (inputValue st) in
  let k := length (pending st) in
  m <> EmptyString ->
  ~ claimed_success r ->
  inherited (currentCategory st) = false ->
  (0 <= w_random w4 < 1)%Q ->
  let st' := run [ (w1, Send); (w2, FetchSettles k r); (w3, JsonSettles k);
                   (w4, TimerFires (S k)) ] st in
  exists e id X,
    In X (spec_templates (currentCategory st) m
            (to_string w4 (getLanguageName (currentLanguage st)))) /\
    let user_turn := {| m_class := user; m_sender := "You"; m_time := w_time w1;
                        m_text := m |} in
    let bot_turn := {| m_class := bot; m_sender := "Bantuan Bot"; m_time := w_time w4;
                       m_text := X |} in
    chatMessages st' = chatMessages st ++ [user_turn; bot_turn] /\
    effects st' = effects st ++
      [ EAppend user_turn;
        EShowStatus "Processing your request..." info;
        EFetch (getApiEndpoint w1 +:+ "/api/chat")
               {| rq_message := m; rq_language := currentLanguage st;
                  rq_category := currentCategory st |};
        EHideStatus id; ESetTimeout 300 (CbRemoveStatus id);
        EShowStatus ("Error: " +:+ e) error;
        ESetTimeout 1000 (CbFallback m);
        EAppend bot_turn ].
Proof.
  intros m k Hm Hr Hinh Hrange st'. subst st'.
  rewrite run_cons, run_two, run_cons, run_nil.
  change (step w1 Send st) with (handleSendMessage w1 st).
  destruct (handleSendMessage_state w1 st Hm)
    as (Hlog1 & Heff1 & Hp1 & (n & rest & Hs1) & Hc1 & Hl1).
  set (st1 := handleSendMessage w1 st) in *.
  assert (pending st1 !! k = Some (TFetch m)) as Hk.
  { rewrite Hp1. by apply list_lookup_middle. }
  assert (k = length (pending st1) - 1) as Hk'.
  { rewrite Hp1, length_app. simpl. subst k. lia. }
  destruct (remote_failure_state w2 w3 st1 k m r n rest Hk Hr Hs1)
    as (e & Hlog2 & Heff2 & Hp2 & Hc2 & Hl2).
  rewrite <- Hk' in Hlog2, Heff2, Hp2, Hc2, Hl2.
  set (st2 := run [(w2, FetchSettles k r); (w3, JsonSettles k)] st1) in *.
  assert (pending st2 !! S k = Some (TTimer 1000 (CbFallback m))) as Hfire.
  { rewrite Hp2, Hp1. subst k.
    rewrite (delete_middle (pending st) [] (TFetch _)), app_nil_r.
    change (pending st ++ [TTimer 300 (CbRemoveStatus (s_id n)); TTimer 1000 (CbFallback m)])
      with (pending st ++ [TTimer 300 (CbRemoveStatus (s_id n))]
                       ++ [TTimer 1000 (CbFallback m)]).
    rewrite app_assoc. apply list_lookup_middle. rewrite length_app. simpl. lia. }
  destruct (fallback_fires w4 st2 (S k) 1000 m Hfire) as (Hlog3 & Heff3 & _).
  destruct (generateBotResponse_template w4 m st2) as (t & Ht & Hin);
    [by rewrite Hc2, Hc1|exact Hrange|].
  rewrite Hc2, Hc1, Hl2, Hl1 in Hin.
  exists e, (s_id n), t. split; [exact Hin|]. cbv zeta. split.
  - rewrite Hlog3, Hlog2, Hlog1, Ht, <- !app_assoc. reflexivity.
  - rewrite Heff3, Heff2, Heff1, Ht, <- !app_assoc. reflexivity.
Qed.

(** C3, at the category named constructor.  The send fails and the timer
    fires: the bot turn that is appended has an empty text, which is none
    of the templates, because the lookup in the table of responses found
    the inherited member of that name instead of falling back to
    general. *)
Example fallback_text_for_inherited_category :
  chatMessages
    (run [ (sample_world, Send);
           (sample_world, FetchSettles 0 (Rejected "Failed to fetch"));
           (sample_world, JsonSettles 0);
           (sample_world, TimerFires 1) ] (sample_typed "constructor"))
  = [ greeting;
      {| m_class := user; m_sender := "You"; m_time := "10:15:00 AM";
         m_text := "reset my password" |};
      {| m_class := bot; m_sender := "Bantuan Bot"; m_time := "10:15:00 AM";
         m_text := EmptyString |} ] /\
  ~ In EmptyString (spec_templates "constructor" "reset my password" "English").
Proof.
  split; [reflexivity|]. simpl. intros [H|[H|[H|[]]]]; discriminate.
Qed.

(** C9, at the category named constructor.  The table of responses has no
    entry of that name, so the responder should answer with a template
    of general; it returns undefined, with Math.random() well inside
    its range. *)
Example generateBotResponse_inherited_category :
  currentCategory (sample_typed "constructor") = "constructor" /\
  (0 <= w_random sample_world < 1)%Q /\
  generateBotResponse sample_world "reset my password" (sample_typed "constructor")
  = VUndefined /\
  ~ (exists t,
       generateBotResponse sample_world "reset my password"
         (sample_typed "constructor") = VStr t /\
       In t (spec_templates "constructor" "reset my password" "English")).
Proof.
  split; [reflexivity|]. split; [exact sample_random_in_range|].
  split; [reflexivity|]. intros (t & H & _). discriminate.
Qed.

(** ** Endpoint resolution *)

(** C4, as the script has it.  getApiEndpoint is a function of the page
    location and of the stored override alone, and it decides in this
    order: the fixed local base for the file: scheme or for the host
    names localhost and 127.0.0.1; the fixed backend base for a host name
    that contains azurestaticapps.net; the stored override when there is
    one and it is not empty; and otherwise the scheme and host name of
    the page, without its port. *)
Theorem getApiEndpoint_priority (w : world) :
  let h := hostname (w_location w) in
  let p := protocol (w_location w) in
  (p = "file:" \/ h = "localhost" \/ h = "127.0.0.1" ->
     getApiEndpoint w = local_backend) /\
  (p <> "file:" -> h <> "localhost" -> h <> "127.0.0.1" ->
     (includes h "azurestaticapps.net" = true -> getApiEndpoint w = azure_backend) /\
     (includes h "azurestaticapps.net" = false ->
        (forall u, w_backendUrl w = Some u -> u <> EmptyString ->
                   getApiEndpoint w = u) /\
        (w_backendUrl w = None \/ w_backendUrl w = Some EmptyString ->
           getApiEndpoint w = p +:+ "//" +:+ h))) /\
  (forall w', w_location w' = w_location w -> w_backendUrl w' = w_backendUrl w ->
              getApiEndpoint w' = getApiEndpoint w).
Proof.
  intros h p. unfold getApiEndpoint. fold h p. split; [|split].
  - intros [Hp|[Hh|Hh]].
    + rewrite Hp. reflexivity.
    + destruct (String.eqb p "file:"); [reflexivity|]. rewrite Hh. reflexivity.
    + destruct (String.eqb p "file:"); [reflexivity|]. rewrite Hh. reflexivity.
  - intros Hp Hl H1.
    apply String.eqb_neq in Hp, Hl, H1. rewrite Hp, Hl, H1. simpl. split.
    + intros ->. reflexivity.
    + intros ->. split.
      * intros u -> Hu. apply String.eqb_neq in Hu. rewrite Hu. reflexivity.
      * intros [->| ->]; reflexivity.
  - intros w' Hloc Hurl. unfold getApiEndpoint. subst h p. by rewrite Hloc, Hurl.
Qed.

Lemma getApiEndpoint_priority_sample :
  getApiEndpoint sample_world = "https://support.example.com".
Proof.
  destruct (getApiEndpoint_priority sample_world) as (_ & H & _).
  destruct H as (_ & H); [discriminate..|].
  destruct (H eq_refl) as (_ & Hdefault).
  rewrite Hdefault; [reflexivity|]. by left.
Defined.

(** C4 as claimed fails twice.  A page served from port 8080 does not
    get its own origin, which names the port; and an override that is
    stored but empty is not used. *)
Lemma getApiEndpoint_is_not_origin :
  (w_backendUrl sample_port_world = None /\
   getApiEndpoint sample_port_world = "http://example.com" /\
   origin (w_location sample_port_world) = "http://example.com:8080" /\
   getApiEndpoint sample_port_world <> origin (w_location sample_port_world)) /\
  (w_backendUrl sample_empty_override_world = Some EmptyString /\
   getApiEndpoint sample_empty_override_world = "https://support.example.com" /\
   getApiEndpoint sample_empty_override_world <> EmptyString).
Proof. by repeat split. Qed.

(** ** The language registry *)

(** C5, as the script has it.  The three lookups are defined for every
    code.  For a code of the registry they give its display name, speech
    locale and placeholder.  For any other code, provided it does not
    name a member that object literals inherit, they give the display
    name Unknown, the speech locale en-US and the English placeholder.
    The placeholder is the one updateChatPlaceholder puts into the input
    field for the active language. *)
Theorem resolveLanguage_total (code : string) :
  (forall name, own languages code = Some name ->
     exists locale ph,
       own speechCodes code = Some locale /\ own placeholders code = Some ph /\
       resolveLanguage code = (VStr name, VStr locale, VStr ph)) /\
  (own languages code = None -> inherited code = false ->
     resolveLanguage code = (VStr "Unknown", VStr "en-US", VStr placeholder_en)) /\
  resolveLanguage "en" = english_entry /\
  (forall w st, currentLanguage st = code ->
     placeholder (updateChatPlaceholder w st)
     = to_string w (snd (resolveLanguage code))).
Proof.
  split; [|split; [|split; [reflexivity|by intros w st <-]]];
    unfold resolveLanguage, getLanguageName, getLanguageCode, placeholderFor,
      get_string, get.
  - intros name. cbn [own languages speechCodes placeholders].
    walk_table code; intros [= <-]; eexists _, _; repeat split; reflexivity.
  - cbn [own languages speechCodes placeholders].
    walk_table code. intros _ ->. reflexivity.
Qed.

Lemma resolveLanguage_sample :
  resolveLanguage "th" = (VStr "ไทย (Thai)", VStr "th-TH",
                          VStr "พิมพ์ข้อความของคุณที่นี่... (กด Enter เพื่อส่ง)") /\
  resolveLanguage "fr" = (VStr "Unknown", VStr "en-US", VStr placeholder_en).
Proof.
  split.
  - destruct (resolveLanguage_total "th") as (H & _).
    destruct (H _ eq_refl) as (locale & ph & [= <-] & [= <-] & ->). reflexivity.
  - destruct (resolveLanguage_total "fr") as (_ & H & _). exact (H eq_refl eq_refl).
Defined.

(** C5 as claimed fails: a code outside the registry gets the display
    name Unknown, which is not that of the English entry. *)
Lemma resolveLanguage_unknown_is_not_english :
  own languages "fr" = None /\
  resolveLanguage "fr" = (VStr "Unknown", VStr "en-US", VStr placeholder_en) /\
  resolveLanguage "fr" <> english_entry.
Proof. by repeat split. Qed.

(** ** Export *)

Lemma append_cons (x : ascii) (a b : string) :
  String x a +:+ b = String x (a +:+ b).
Proof. reflexivity. Qed.

Lemma append_assoc (a b c : string) : (a +:+ b) +:+ c = a +:+ (b +:+ c).
Proof.
  induction a as [|x a IH]; [reflexivity|]. by rewrite !append_cons, IH.
Qed.

Lemma append_empty_r (a : string) : a +:+ EmptyString = a.
Proof.
  induction a as [|x a IH]; [reflexivity|]. by rewrite append_cons, IH.
Qed.

Lemma chatLog_add_record chatLog message :
  chatLog_add chatLog message = chatLog +:+ spec_record message.
Proof. reflexivity. Qed.

(** The loop of handleDownloadChat adds the records one after the other,
    in the order of the display. *)
Lemma chatLog_loop (messages : list message) (chatLog : string) :
  fold_left chatLog_add messages chatLog
  = chatLog +:+ flatten (map spec_record messages).
Proof.
  revert chatLog. induction messages as [|m messages IH]; intros chatLog; simpl.
  - by rewrite append_empty_r.
  - rewrite IH, chatLog_add_record, append_assoc. reflexivity.
Qed.

(** C6.  The exported text is the header (title, time of generation,
    name of the active language, id of the active category, a line of 50
    equals signs and an empty line) followed by one record per message of
    the display: as many records as messages, the record at each position
    made of the time, sender and text of the message at that position as
    they stand in the display.  The download carries this text under a
    name that holds the first ten characters of the ISO date, and the
    display is left as it was. *)
Theorem handleDownloadChat_exports_log (w : world) (st : state) :
  let records := map spec_record (chatMessages st) in
  let header :=
    flatten (map (fun line => line +:+ nl)
      [ "Bantuan Support Chat Log";
        "Generated: " +:+ w_datetime w;
        "Language: " +:+ to_string w (getLanguageName (currentLanguage st));
        "Category: " +:+ currentCategory st;
        repeat_string "=" 50;
        EmptyString ]) in
  chatLog_text w st = header +:+ flatten records /\
  length records = length (chatMessages st) /\
  (forall i m, chatMessages st !! i = Some m ->
     records !! i = Some ("[" +:+ m_time m +:+ "] " +:+ m_sender m +:+ ":" +:+ nl
                          +:+ m_text m +:+ nl +:+ nl)) /\
  effects (handleDownloadChat w st) = effects st ++
    [ EDownload ("bantuan-chat-" +:+ String.substring 0 10 (w_iso w) +:+ ".txt")
                (chatLog_text w st);
      EShowStatus "Chat log downloaded successfully" success;
      ESetTimeout 2000 CbHideStatus ] /\
  chatMessages (handleDownloadChat w st) = chatMessages st.
Proof.
  intros records header. split; [|split; [|split; [|split]]].
  - unfold chatLog_text. rewrite chatLog_loop. f_equal.
    unfold chatLog_header. subst header. cbn [map flatten].
    rewrite !append_assoc, append_empty_r. reflexivity.
  - subst records. apply length_map.
  - intros i m Hi. subst records. rewrite list_lookup_fmap, Hi. reflexivity.
  - unfold handleDownloadChat. simpl. rewrite <- !app_assoc. reflexivity.
  - reflexivity.
Qed.

Lemma handleDownloadChat_sample :
  chatLog_text sample_world sample_sent =
    "Bantuan Support Chat Log" +:+ nl
    +:+ "Generated: 11/2/2026, 10:15:00 AM" +:+ nl
    +:+ "Language: English" +:+ nl
    +:+ "Category: account" +:+ nl
    +:+ "==================================================" +:+ nl +:+ nl
    +:+ "[Just now] Bantuan Bot:" +:+ nl +:+ m_text greeting +:+ nl +:+ nl
    +:+ "[10:15:00 AM] You:" +:+ nl +:+ "reset my password" +:+ nl +:+ nl.
Proof.
  destruct (handleDownloadChat_exports_log sample_world sample_sent) as (H & _).
  rewrite H. reflexivity.
Defined.

(** ** Clearing *)

(** C7.  Without the user's confirmation handleClearChat changes
    nothing.  With it, the display holds exactly one message afterwards,
    the greeting of the bot, whatever it held before; language, category
    and listening flag stay as they were. *)
Theorem handleClearChat_confirm (w : world) (st : state) :
  (w_confirm w = false -> handleClearChat w st = st) /\
  (w_confirm w = true ->
     chatMessages (handleClearChat w st) = [greeting] /\
     m_class greeting = bot /\
     currentLanguage (handleClearChat w st) = currentLanguage st /\
     currentCategory (handleClearChat w st) = currentCategory st /\
     isListening (handleClearChat w st) = isListening st).
Proof.
  unfold handleClearChat. split; intros ->; [reflexivity|]. by repeat split.
Qed.

Lemma handleClearChat_sample :
  chatMessages (handleClearChat sample_world sample_sent) = [greeting] /\
  length (chatMessages sample_sent) = 2.
Proof.
  split; [|reflexivity].
  destruct (handleClearChat_confirm sample_world sample_sent) as (_ & H).
  destruct (H eq_refl) as (Hlog & _). exact Hlog.
Defined.

(** ** Speech recognition *)

(** C8, as the script has it.  The error callback shows the error notice
    and sets a 3000 ms timer that calls hideStatusMessage; it leaves the
    listening flag as it is.  The flag is set to false by the end
    callback, which the platform runs when the capture, failed or not, is
    over.  The end callback calls hideStatusMessage itself: on a page
    with at most one notice, it is then that the error notice starts to
    leave, with the 3000 ms timer still waiting. *)
Theorem onerror_then_onend (st : state) :
  isListening (onerror st) = isListening st /\
  effects (onerror st) = effects st ++
    [ EShowStatus "Voice recognition error. Please try again." error;
      ESetTimeout 3000 CbHideStatus ] /\
  last (statusNodes (onerror st)) =
    Some {| s_id := nextId st; s_text := "Voice recognition error. Please try again.";
            s_background := "var(--error)"; s_leaving := false |} /\
  chatMessages (onerror st) = chatMessages st /\
  isListening (onend (onerror st)) = false /\
  pending (onerror st) = pending st ++ [TTimer 3000 CbHideStatus] /\
  (length (statusNodes st) <= 1 ->
     statusNodes (onend (onerror st)) =
       [ {| s_id := nextId st; s_text := "Voice recognition error. Please try again.";
            s_background := "var(--error)"; s_leaving := true |} ] /\
     pending (onend (onerror st)) = pending st ++
       [ TTimer 3000 CbHideStatus; TTimer 300 (CbRemoveStatus (nextId st)) ]).
Proof.
  split; [reflexivity|]. split; [|split; [|split; [|split; [|split]]]].
  - unfold onerror. simpl. rewrite <- app_assoc. reflexivity.
  - unfold onerror. simpl. by rewrite last_snoc.
  - reflexivity.
  - unfold onend. by destruct (hideStatusMessage_session
        (set_voice false (icon "fas fa-microphone") EmptyString (onerror st)))
      as (_ & _ & ->).
  - reflexivity.
  - intros Hlen. unfold onend, onerror, showStatusMessage, hideStatusMessage.
    destruct (statusNodes st) as [|n [|n' rest]] eqn:E; simpl in Hlen; [| |lia];
      cbn [statusNodes pending nextId setTimeout emit set_pending set_status set_voice
           app s_id s_text s_background colors];
      rewrite ?E; cbn [app]; rewrite <- app_assoc; by split.
Qed.

(** C8 as claimed fails: after the error callback alone the controller
    is still listening. *)
Lemma onerror_keeps_listening :
  isListening sample_listening = true /\
  isListening (onerror sample_listening) = true /\
  isListening (onend (onerror sample_listening)) = false.
Proof. by repeat split. Qed.

(** * Further properties of the script *)

(** ** The notice area *)

Lemma notice_ok_ext st st' :
  statusNodes st' = statusNodes st -> nextId st' = nextId st ->
  notice_ok st -> notice_ok st'.
Proof. unfold notice_ok. by intros -> ->. Qed.

Lemma notice_ok_show message type st :
  notice_ok st -> notice_ok (showStatusMessage message type st).
Proof.
  intros [Hlen Hid]. unfold notice_ok, showStatusMessage.
  cbn [statusNodes nextId emit set_status].
  destruct (statusNodes st) as [|n [|n' rest]]; simpl in Hlen; [| |lia].
  - split; [simpl; lia|]. repeat constructor.
  - split; [simpl; lia|]. repeat constructor.
Qed.

Lemma notice_ok_hide st : notice_ok st -> notice_ok (hideStatusMessage st).
Proof.
  intros [Hlen Hid]. unfold notice_ok, hideStatusMessage.
  destruct (statusNodes st) as [|n rest] eqn:E.
  - rewrite E. by split.
  - cbn [statusNodes nextId setTimeout emit set_pending set_status]. split.
    + exact Hlen.
    + inversion Hid as [|? ? Hn Hrest]; subst. by constructor.
Qed.

Lemma notice_ok_remove id st : notice_ok st -> notice_ok (removeStatus id st).
Proof.
  intros [Hlen Hid]. unfold notice_ok, removeStatus.
  cbn [statusNodes nextId set_status]. split.
  - etrans; [apply length_filter|exact Hlen].
  - rewrite Forall_forall in Hid |- *. intros n Hn.
    apply list_elem_of_filter in Hn as [_ Hn]. by apply Hid.
Qed.

Lemma notice_ok_catch m e st : notice_ok st -> notice_ok (catch_block m e st).
Proof.
  intros H. unfold catch_block.
  apply (notice_ok_ext
           (showStatusMessage ("Error: " +:+ e) error (hideStatusMessage st)));
    [reflexivity..|].
  by apply notice_ok_show, notice_ok_hide.
Qed.

Lemma notice_ok_send w st : notice_ok st -> notice_ok (handleSendMessage w st).
Proof.
  intros H. unfold handleSendMessage.
  destruct (String.eqb (trim (inputValue st)) EmptyString); [exact H|].
  apply (notice_ok_ext
           (showStatusMessage "Processing your request..." info
              (set_inputValue EmptyString
                 (addMessage w user (VStr (trim (inputValue st))) st))));
    [reflexivity..|].
  apply notice_ok_show. by apply (notice_ok_ext st).
Qed.

Lemma notice_ok_clear w st : notice_ok st -> notice_ok (handleClearChat w st).
Proof.
  intros H. unfold handleClearChat. destruct (w_confirm w); [|exact H].
  apply (notice_ok_ext
           (showStatusMessage "Chat cleared successfully" success
              (emit (EReplaceLog [greeting]) (set_chatMessages [greeting] st))));
    [reflexivity..|].
  apply notice_ok_show. by apply (notice_ok_ext st).
Qed.

Lemma notice_ok_download w st : notice_ok st -> notice_ok (handleDownloadChat w st).
Proof.
  intros H. unfold handleDownloadChat.
  apply (notice_ok_ext
           (showStatusMessage "Chat log downloaded successfully" success
              (emit (EDownload (download_name w) (chatLog_text w st)) st)));
    [reflexivity..|].
  apply notice_ok_show. by apply (notice_ok_ext st).
Qed.

Lemma notice_ok_step w ev st : notice_ok st -> notice_ok (step w ev st).
Proof.
  intros H. destruct ev; cbn [step].
  - by apply (notice_ok_ext st).
  - by apply notice_ok_send.
  - unfold take. destruct (pending st !! k) as [[m| |]|]; try exact H.
    unfold resume_fetch. destruct (try_fetch r) as [e|b].
    + apply notice_ok_catch. by apply (notice_ok_ext st).
    + by apply (notice_ok_ext st).
  - unfold take. destruct (pending st !! k) as [[|m b|]|]; try exact H.
    unfold resume_json.
    assert (notice_ok (set_pending (delete k (pending st)) st)) as H0
      by (by apply (notice_ok_ext st)).
    revert H0. generalize (set_pending (delete k (pending st)) st). intros st0 H0.
    unfold try_json. destruct b as [e|[| |members]];
      try (by apply notice_ok_catch).
    destruct (is_string (member (JObject members) "status") "success").
    + apply (notice_ok_ext (hideStatusMessage st0)); [reflexivity..|].
      by apply notice_ok_hide.
    + by apply notice_ok_catch.
  - unfold take. destruct (pending st !! k) as [[| |d cb]|]; try exact H.
    assert (notice_ok (set_pending (delete k (pending st)) st)) as H0
      by (by apply (notice_ok_ext st)).
    destruct cb; cbn [run_callback].
    + by apply notice_ok_hide.
    + by apply notice_ok_remove.
    + by apply (notice_ok_ext st).
  - unfold handleLanguageChange, updateChatPlaceholder.
    cbn [recognition set_controls set_session].
    destruct (recognition st); by apply (notice_ok_ext st).
  - by apply (notice_ok_ext st).
  - by apply notice_ok_clear.
  - by apply notice_ok_download.
  - unfold onstart. apply notice_ok_show. by apply (notice_ok_ext st).
  - by apply (notice_ok_ext st).
  - unfold onend. apply notice_ok_hide. by apply (notice_ok_ext st).
  - unfold onerror.
    apply (notice_ok_ext
             (showStatusMessage "Voice recognition error. Please try again." error st));
      [reflexivity..|].
    by apply notice_ok_show.
Qed.

Lemma notice_ok_toggle w st :
  notice_ok st -> notice_ok (fst (toggleVoiceRecognition w st)).
Proof.
  intros H. unfold toggleVoiceRecognition. destruct (recognition st).
  - destruct (isListening st); [exact H|]. by apply (notice_ok_ext st).
  - cbn [fst].
    apply (notice_ok_ext
             (showStatusMessage "Voice recognition not supported in this browser"
                error st)); [reflexivity..|].
    by apply notice_ok_show.
Qed.

Lemma notice_ok_page_step w pev st : notice_ok st -> notice_ok (page_step w pev st).
Proof.
  intros H. destruct pev as [ev| |e|e]; cbn [page_step].
  - by apply notice_ok_step.
  - by apply notice_ok_toggle.
  - unfold keydown. cbn [r_state].
    destruct ((ctrlKey e || metaKey e) && String.eqb (key e) "s");
      destruct ((ctrlKey e || metaKey e) && String.eqb (key e) "k");
      auto using notice_ok_clear, notice_ok_download.
  - unfold keypress.
    destruct (String.eqb (key e) "Enter" && negb (shiftKey e)); cbn [r_state];
      auto using notice_ok_send.
Qed.

(** X1.  Whatever the user and the platform do, and in whatever order
    requests settle and timers fire, a page that starts with at most one
    notice never shows more than one: showing a notice takes the place
    of the one on the page. *)
Theorem one_notice_at_a_time (evs : list (world * page_event)) (st : state) :
  notice_ok st ->
  notice_ok (page_run evs st) /\ length (statusNodes (page_run evs st)) <= 1.
Proof.
  revert st. induction evs as [|[w pev] evs IH]; intros st H; cbn [page_run].
  - split; [exact H|apply H].
  - apply IH. by apply notice_ok_page_step.
Qed.

Lemma one_notice_at_a_time_sample :
  length (statusNodes
            (page_run [ (sample_world, Core RecognitionError);
                        (sample_world, Core (Typed "hello"));
                        (sample_world, KeyPress {| key := "Enter"; ctrlKey := false;
                                                   metaKey := false; shiftKey := false |});
                        (sample_world, Core ClearClicked) ] sample_page)) <= 1.
Proof.
  apply (one_notice_at_a_time _ sample_page). split; [simpl; lia|constructor].
Defined.

Lemma showStatusMessage_replaces message type st :
  notice_ok st ->
  statusNodes (showStatusMessage message type st)
  = [ {| s_id := nextId st; s_text := message; s_background := colors type;
         s_leaving := false |} ] /\
  nextId (showStatusMessage message type st) = S (nextId st).
Proof.
  intros [Hlen _]. unfold showStatusMessage. cbn [statusNodes nextId emit set_status].
  destruct (statusNodes st) as [|n [|n' rest]]; simpl in Hlen; [by split|by split|lia].
Qed.

(** X2.  The timer that is to hide one notice hides whichever notice is
    on the page when it fires.  The chat is cleared and, before the 2000
    ms of the notice of the clearing are over, a message is sent: when
    the timer fires, it is the processing notice of the send that starts
    to leave, while the request is still in flight. *)
Theorem hide_timer_hides_later_notice (w1 w2 w3 : world) (st : state) :
  notice_ok st ->
  w_confirm w1 = true ->
  trim (inputValue st) <> EmptyString ->
  let st' := run [ (w1, ClearClicked); (w2, Send);
                   (w3, TimerFires (length (pending st))) ] st in
  statusNodes st' =
    [ {| s_id := S (nextId st); s_text := "Processing your request...";
         s_background := "var(--accent-primary)"; s_leaving := true |} ] /\
  pending st' = pending st ++
    [ TFetch (trim (inputValue st)); TTimer 300 (CbRemoveStatus (S (nextId st))) ].
Proof.
  intros Hok Hc Hm st'. subst st'.
  rewrite run_cons, run_cons, run_cons, run_nil.
  change (step w1 ClearClicked st) with (handleClearChat w1 st).
  change (step w2 Send) with (handleSendMessage w2).
  assert (statusNodes (handleClearChat w1 st)
          = [ {| s_id := nextId st; s_text := "Chat cleared successfully";
                 s_background := colors success; s_leaving := false |} ] /\
          nextId (handleClearChat w1 st) = S (nextId st) /\
          pending (handleClearChat w1 st) = pending st ++ [TTimer 2000 CbHideStatus] /\
          inputValue (handleClearChat w1 st) = inputValue st) as (Hs1 & Hn1 & Hp1 & Hi1).
  { unfold handleClearChat. rewrite Hc.
    destruct (showStatusMessage_replaces "Chat cleared successfully" success
                (emit (EReplaceLog [greeting]) (set_chatMessages [greeting] st)))
      as [Hs Hn]; [by apply (notice_ok_ext st)|].
    cbn [statusNodes nextId pending inputValue setTimeout emit set_pending].
    rewrite Hs, Hn. by repeat split. }
  set (st1 := handleClearChat w1 st) in *.
  assert (notice_ok st1) as Hok1 by (subst st1; by apply notice_ok_clear).
  assert (trim (inputValue st1) <> EmptyString) as Hm1 by (by rewrite Hi1).
  assert (statusNodes (handleSendMessage w2 st1)
          = [ {| s_id := S (nextId st); s_text := "Processing your request...";
                 s_background := colors info; s_leaving := false |} ] /\
          nextId (handleSendMessage w2 st1) = S (S (nextId st)) /\
          pending (handleSendMessage w2 st1)
          = pending st ++ [TTimer 2000 CbHideStatus; TFetch (trim (inputValue st))])
    as (Hs2 & Hn2 & Hp2).
  { unfold handleSendMessage. apply String.eqb_neq in Hm1. rewrite Hm1.
    destruct (showStatusMessage_replaces "Processing your request..." info
                (set_inputValue EmptyString
                   (addMessage w2 user (VStr (trim (inputValue st1))) st1)))
      as [Hs Hn]; [by apply (notice_ok_ext st1)|].
    unfold sendMessageToBackend.
    cbn [statusNodes nextId pending suspend emit set_pending
         showStatusMessage set_status set_inputValue addMessage set_chatMessages]
      in Hs, Hn |- *.
    rewrite Hs, Hn1, Hp1, Hi1, <- app_assoc. by repeat split. }
  set (st2 := handleSendMessage w2 st1) in *.
  assert (pending st2 !! length (pending st) = Some (TTimer 2000 CbHideStatus)) as Hk.
  { rewrite Hp2. by apply list_lookup_middle. }
  cbn [step]. rewrite (take_Some _ _ _ Hk). cbn [run_callback].
  unfold hideStatusMessage. cbn [statusNodes set_pending]. rewrite Hs2.
  cbn [statusNodes pending setTimeout emit set_pending set_status s_id s_text
       s_background colors].
  rewrite Hp2, (delete_middle (pending st) [TFetch _] (TTimer 2000 CbHideStatus)).
  rewrite <- app_assoc. by split.
Qed.

Lemma hide_timer_hides_later_notice_sample :
  map s_text (statusNodes
    (run [ (sample_world, ClearClicked); (sample_world, Send); (sample_world, TimerFires 0) ]
         (sample_typed "general"))) = ["Processing your request..."] /\
  map s_leaving (statusNodes
    (run [ (sample_world, ClearClicked); (sample_world, Send); (sample_world, TimerFires 0) ]
         (sample_typed "general"))) = [true].
Proof.
  assert (notice_ok (sample_typed "general")) as Hok
    by (split; [simpl; lia|constructor]).
  assert (trim (inputValue (sample_typed "general")) <> EmptyString) as Hm
    by (vm_compute; discriminate).
  destruct (hide_timer_hides_later_notice sample_world sample_world sample_world
              (sample_typed "general") Hok eq_refl Hm) as [Hs _].
  change (length (pending (sample_typed "general"))) with 0 in Hs.
  rewrite Hs. by split.
Defined.

(** ** The display only grows *)

Lemma appends_same cls st st' : chatMessages st' = chatMessages st -> appends cls st st'.
Proof.
  intros H. exists []. rewrite app_nil_r. split; [exact H|]. split; [simpl; lia|constructor].
Qed.

Lemma appends_addMessage w cls text st0 st :
  chatMessages st0 = chatMessages st -> appends cls st (addMessage w cls text st0).
Proof.
  intros H. eexists [_]. cbn [chatMessages addMessage emit set_chatMessages].
  rewrite H. split; [reflexivity|]. split; [simpl; lia|]. by repeat constructor.
Qed.

Lemma appends_send w st : appends user st (handleSendMessage w st).
Proof.
  unfold handleSendMessage.
  destruct (String.eqb (trim (inputValue st)) EmptyString); [by apply appends_same|].
  eexists [_]. split; [reflexivity|]. split; [simpl; lia|]. by repeat constructor.
Qed.

Lemma appends_step w ev st :
  ev <> Send -> (ev = ClearClicked -> w_confirm w = false) ->
  appends bot st (step w ev st).
Proof.
  intros Hsend Hclear. destruct ev; cbn [step]; try (by apply appends_same).
  - unfold take. destruct (pending st !! k) as [[m| |]|]; try (by apply appends_same).
    unfold resume_fetch. destruct (try_fetch r) as [e|b]; apply appends_same;
      [by rewrite catch_block_chatMessages|reflexivity].
  - unfold take. destruct (pending st !! k) as [[|m b|]|]; try (by apply appends_same).
    unfold resume_json, try_json.
    destruct b as [e|[| |members]];
      try (apply appends_same; by rewrite catch_block_chatMessages).
    + change (appends bot st
                (catch_block m
                   (to_string w (or_else VUndefined (VStr "Unknown error from API")))
                   (set_pending (delete k (pending st)) st))).
      apply appends_same. by rewrite catch_block_chatMessages.
    + destruct (is_string (member (JObject members) "status") "success").
      * apply appends_addMessage. by rewrite hideStatusMessage_chatMessages.
      * apply appends_same. by rewrite catch_block_chatMessages.
  - unfold take. destruct (pending st !! k) as [[| |d cb]|]; try (by apply appends_same).
    destruct cb; cbn [run_callback].
    + apply appends_same. by rewrite hideStatusMessage_chatMessages.
    + by apply appends_same.
    + by apply appends_addMessage.
  - unfold handleLanguageChange, updateChatPlaceholder.
    cbn [recognition set_controls set_session].
    destruct (recognition st); by apply appends_addMessage.
  - unfold handleCategoryChange. by apply appends_addMessage.
  - unfold handleClearChat. rewrite (Hclear eq_refl). by apply appends_same.
  - unfold onend. apply appends_same. by rewrite hideStatusMessage_chatMessages.
Qed.

(** X3.  One run of a listener either clears the chat (the clear button
    or Ctrl/Cmd + k, confirmed), leaving the greeting alone, or keeps
    every message of the display in place and puts at most one new
    message after them.  A message of the user can only come from a
    submission of the input field; everything else adds bot messages. *)
Theorem display_only_grows (w : world) (pev : page_event) (st : state) :
  if clears_chat w pev then chatMessages (page_step w pev st) = [greeting]
  else appends (if submits pev then user else bot) st (page_step w pev st).
Proof.
  unfold clears_chat, submits. destruct pev as [ev| |e|e]; cbn [page_step].
  - destruct ev; rewrite ?andb_false_r, ?andb_true_r;
      try (apply appends_step; [discriminate|discriminate]).
    + apply appends_send.
    + destruct (w_confirm w) eqn:Hc.
      * cbn [step]. unfold handleClearChat. by rewrite Hc.
      * apply appends_step; [discriminate|done].
  - rewrite andb_false_r. apply appends_same. unfold toggleVoiceRecognition.
    destruct (recognition st); [by destruct (isListening st)|reflexivity].
  - unfold keydown. cbn [r_state].
    destruct ((ctrlKey e || metaKey e) && String.eqb (key e) "k") eqn:Hk.
    + assert ((ctrlKey e || metaKey e) && String.eqb (key e) "s" = false) as ->.
      { apply andb_true_iff in Hk as [_ Hk]. apply String.eqb_eq in Hk.
        rewrite Hk. apply andb_false_r. }
      unfold handleClearChat. destruct (w_confirm w); cbn [andb];
        [reflexivity|by apply appends_same].
    + rewrite andb_false_r.
      destruct ((ctrlKey e || metaKey e) && String.eqb (key e) "s");
        by apply appends_same.
  - rewrite andb_false_r. unfold keypress.
    destruct (String.eqb (key e) "Enter" && negb (shiftKey e)); cbn [r_state].
    + apply appends_send.
    + by apply appends_same.
Qed.

(** ** The session changes by its own events only *)

Lemma session_hide st : session (hideStatusMessage st) = session st.
Proof. unfold session, hideStatusMessage. by destruct (statusNodes st). Qed.

Lemma session_catch m e st : session (catch_block m e st) = session st.
Proof. unfold catch_block. rewrite <- (session_hide st). reflexivity. Qed.

Lemma session_send w st : session (handleSendMessage w st) = session st.
Proof.
  unfold handleSendMessage. by destruct (String.eqb (trim (inputValue st)) EmptyString).
Qed.

Lemma session_clear w st : session (handleClearChat w st) = session st.
Proof. unfold handleClearChat. by destruct (w_confirm w). Qed.

Lemma session_step w ev st :
  session (step w ev st) =
  match ev with
  | LanguageSelected value => (value, currentCategory st, isListening st)
  | CategoryClicked category _ _ => (currentLanguage st, category, isListening st)
  | RecognitionStart => (currentLanguage st, currentCategory st, true)
  | RecognitionEnd => (currentLanguage st, currentCategory st, false)
  | _ => session st
  end.
Proof.
  destruct ev; cbn [step]; try reflexivity.
  - apply session_send.
  - unfold take. destruct (pending st !! k) as [[m| |]|]; try reflexivity.
    unfold resume_fetch. destruct (try_fetch r) as [e|b]; [|reflexivity].
    by rewrite session_catch.
  - unfold take. destruct (pending st !! k) as [[|m b|]|]; try reflexivity.
    unfold resume_json, try_json.
    destruct b as [e|[| |members]]; try (by rewrite session_catch).
    + change (session
                (catch_block m
                   (to_string w (or_else VUndefined (VStr "Unknown error from API")))
                   (set_pending (delete k (pending st)) st)) = session st).
      by rewrite session_catch.
    + destruct (is_string (member (JObject members) "status") "success").
      * change (session (hideStatusMessage (set_pending (delete k (pending st)) st))
                = session st).
        by rewrite session_hide.
      * by rewrite session_catch.
  - unfold take. destruct (pending st !! k) as [[| |d cb]|]; try reflexivity.
    destruct cb; cbn [run_callback]; [by rewrite session_hide|reflexivity..].
  - unfold handleLanguageChange, updateChatPlaceholder.
    cbn [recognition set_controls set_session]. by destruct (recognition st).
  - apply session_clear.
  - unfold onend. by rewrite session_hide.
Qed.

(** X4.  The active language is changed by the language selector alone,
    the active category by a click on a category button alone, and the
    listening flag by the start and end callbacks of the recognizer
    alone: the voice button, the Escape key, a recognition error, sends,
    replies, timers, clearing and exporting leave all three as they
    are. *)
Theorem session_changes_by_its_events (w : world) (pev : page_event) (st : state) :
  session (page_step w pev st) =
  match pev with
  | Core (LanguageSelected value) => (value, currentCategory st, isListening st)
  | Core (CategoryClicked category _ _) => (currentLanguage st, category, isListening st)
  | Core RecognitionStart => (currentLanguage st, currentCategory st, true)
  | Core RecognitionEnd => (currentLanguage st, currentCategory st, false)
  | _ => (currentLanguage st, currentCategory st, isListening st)
  end.
Proof.
  destruct pev as [ev| |e|e]; cbn [page_step].
  - rewrite session_step. by destruct ev.
  - unfold toggleVoiceRecognition, session.
    destruct (recognition st); [|reflexivity].
    destruct (isListening st) eqn:E;
      cbn [fst isListening currentLanguage currentCategory set_controls];
      by rewrite ?E.
  - unfold keydown. cbn [r_state].
    destruct ((ctrlKey e || metaKey e) && String.eqb (key e) "s");
      destruct ((ctrlKey e || metaKey e) && String.eqb (key e) "k");
      try reflexivity; try apply session_clear.
  - unfold keypress.
    destruct (String.eqb (key e) "Enter" && negb (shiftKey e)); cbn [r_state];
      [apply session_send|reflexivity].
Qed.

(** ** Category buttons *)

(** X5.  After a click on one of the category buttons, that button is
    the only one marked active, whichever were marked before, and the
    active category is the one of the button. *)
Theorem category_click_marks_one_button
    (w : world) (category : string) (btn : nat) (label : string) (st : state) :
  btn < length (activeButtons st) ->
  let st' := handleCategoryChange w category btn label st in
  length (activeButtons st') = length (activeButtons st) /\
  (forall i, i < length (activeButtons st) ->
             activeButtons st' !! i = Some (Nat.eqb i btn)) /\
  currentCategory st' = category.
Proof.
  intros Hbtn st'. subst st'. unfold handleCategoryChange.
  cbn [activeButtons currentCategory addMessage emit set_chatMessages set_controls
       set_session].
  split; [by rewrite length_insert, length_map|]. split; [|reflexivity].
  intros i Hi. destruct (Nat.eqb_spec i btn) as [->|Hne].
  - apply list_lookup_insert_eq. by rewrite length_map.
  - rewrite list_lookup_insert_ne by congruence.
    rewrite list_lookup_fmap.
    destruct (activeButtons st !! i) eqn:E; [reflexivity|].
    apply lookup_ge_None in E. lia.
Qed.

Lemma category_click_marks_one_button_sample :
  activeButtons (handleCategoryChange sample_world "billing" 3 "Billing" sample_page)
  = [false; false; false; true].
Proof.
  destruct (category_click_marks_one_button sample_world "billing" 3 "Billing"
              sample_page) as (Hlen & Hat & _); [simpl; lia|].
  apply list_eq. intros i. destruct (decide (i < 4)) as [Hi|Hi].
  - rewrite (Hat i Hi). by do 4 (destruct i as [|i]; [reflexivity|]); lia.
  - rewrite !lookup_ge_None_2; [reflexivity|simpl; lia|rewrite Hlen; simpl; lia].
Defined.

(** ** Placeholder and recognizer follow the language *)

Lemma to_string_native w w' v : w_native w' = w_native w -> to_string w' v = to_string w v.
Proof. intros H. destruct v as [| |[]| | |]; simpl; by rewrite ?H. Qed.

Lemma controls_hide st : controls (hideStatusMessage st) = controls st.
Proof. unfold controls, hideStatusMessage. by destruct (statusNodes st). Qed.

Lemma controls_catch m e st : controls (catch_block m e st) = controls st.
Proof. unfold catch_block. rewrite <- (controls_hide st). reflexivity. Qed.

Lemma controls_send w st : controls (handleSendMessage w st) = controls st.
Proof.
  unfold handleSendMessage. by destruct (String.eqb (trim (inputValue st)) EmptyString).
Qed.

Lemma controls_clear w st : controls (handleClearChat w st) = controls st.
Proof. unfold handleClearChat. by destruct (w_confirm w). Qed.

Lemma controls_step w ev st :
  (forall value, ev <> LanguageSelected value) -> controls (step w ev st) = controls st.
Proof.
  intros Hne. destruct ev; cbn [step]; try reflexivity.
  - apply controls_send.
  - unfold take. destruct (pending st !! k) as [[m| |]|]; try reflexivity.
    unfold resume_fetch. destruct (try_fetch r) as [e|b]; [|reflexivity].
    by rewrite controls_catch.
  - unfold take. destruct (pending st !! k) as [[|m b|]|]; try reflexivity.
    unfold resume_json, try_json.
    destruct b as [e|[| |members]]; try (by rewrite controls_catch).
    + change (controls
                (catch_block m
                   (to_string w (or_else VUndefined (VStr "Unknown error from API")))
                   (set_pending (delete k (pending st)) st)) = controls st).
      by rewrite controls_catch.
    + destruct (is_string (member (JObject members) "status") "success").
      * change (controls (hideStatusMessage (set_pending (delete k (pending st)) st))
                = controls st).
        by rewrite controls_hide.
      * by rewrite controls_catch.
  - unfold take. destruct (pending st !! k) as [[| |d cb]|]; try reflexivity.
    destruct cb; cbn [run_callback]; [by rewrite controls_hide|reflexivity..].
  - by destruct (Hne value).
  - apply controls_clear.
  - unfold onend. by rewrite controls_hide.
Qed.

Lemma language_synced_controls w st st' :
  controls st' = controls st -> language_synced w st -> language_synced w st'.
Proof.
  unfold controls, language_synced. intros [= Hl Hp Hr]. by rewrite Hl, Hp, Hr.
Qed.

Lemma language_synced_page_step w w' pev st :
  w_native w' = w_native w ->
  language_synced w st -> language_synced w (page_step w' pev st).
Proof.
  intros Hn H. destruct pev as [ev| |e|e]; cbn [page_step].
  - destruct ev;
      try (apply (language_synced_controls w st); [|exact H];
           apply controls_step; discriminate).
    cbn [step]. unfold handleLanguageChange, updateChatPlaceholder, language_synced.
    cbn [recognition set_controls set_session currentLanguage placeholder].
    destruct (recognition st);
      cbn [recognition placeholder currentLanguage addMessage emit set_chatMessages
           set_controls set_session];
      (split; [by apply to_string_native|]).
    + intros lang [= <-]. by apply to_string_native.
    + discriminate.
  - unfold toggleVoiceRecognition. destruct (recognition st) as [lang0|] eqn:Hr.
    + destruct (isListening st); [exact H|]. cbn [fst]. destruct H as [Hp _].
      split; [exact Hp|]. intros lang [= <-]. by apply to_string_native.
    + by apply (language_synced_controls w st).
  - apply (language_synced_controls w st); [|exact H].
    unfold keydown. cbn [r_state].
    destruct ((ctrlKey e || metaKey e) && String.eqb (key e) "s");
      destruct ((ctrlKey e || metaKey e) && String.eqb (key e) "k");
      try reflexivity; apply controls_clear.
  - apply (language_synced_controls w st); [|exact H].
    unfold keypress.
    destruct (String.eqb (key e) "Enter" && negb (shiftKey e)); cbn [r_state];
      [apply controls_send|reflexivity].
Qed.

(** X6.  When start-up got as far as the placeholder (the page has its
    message display and input field, and the platform offers a
    recognizer or the page has its voice button), the placeholder of the
    input field and the language of the recognizer are from then on, at
    all times, those of the active language: what start-up sets,
    handleLanguageChange renews, and nothing else touches.  (One engine
    serves the whole session: every listener prints inherited members
    the same way.) *)
Theorem controls_follow_language (w : world) (supported : bool) (page : elements)
    (log : list message) (buttons : list bool) (st0 : state)
    (evs : list (world * page_event)) :
  DOMContentLoaded w supported page log buttons = Started st0 ->
  supported || has_voiceBtn page = true ->
  Forall (fun x => w_native (fst x) = w_native w) evs ->
  language_synced w (page_run evs st0).
Proof.
  intros Hstart Hpage.
  assert (language_synced w st0) as H0.
  { unfold DOMContentLoaded in Hstart.
    destruct (has_chatMessages page), (has_messageInput page) eqn:Hinput;
      try discriminate Hstart.
    cbn [negb orb] in Hstart. injection Hstart as <-.
    unfold initializeApp, setupSpeechRecognition, updateChatPlaceholder.
    rewrite Hinput.
    destruct supported; [|cbn [orb] in Hpage; rewrite Hpage];
      split; try reflexivity; cbn; [by intros lang [= <-]|discriminate]. }
  clear Hstart Hpage. revert st0 H0.
  induction evs as [|[w' pev] evs IH]; intros st H0 Hall; cbn [page_run]; [exact H0|].
  inversion Hall as [|? ? Hn Hrest]; subst.
  apply IH; [|exact Hrest]. by apply language_synced_page_step.
Qed.

Lemma controls_follow_language_sample :
  language_synced sample_world
    (page_run [ (sample_world, Core (LanguageSelected "th"));
                (sample_world, VoiceClicked);
                (sample_world, Core (CategoryClicked "billing" 3 "Billing")) ]
       sample_page) /\
  placeholder
    (page_run [ (sample_world, Core (LanguageSelected "th"));
                (sample_world, VoiceClicked);
                (sample_world, Core (CategoryClicked "billing" 3 "Billing")) ]
       sample_page)
  = "พิมพ์ข้อความของคุณที่นี่... (กด Enter เพื่อส่ง)".
Proof.
  split; [|reflexivity].
  apply (controls_follow_language sample_world true sample_elements [greeting]
           [true; false; false; false] sample_page);
    [reflexivity|reflexivity|by repeat constructor].
Defined.

(** ** The voice button *)

(** X7.  What a click on the voice button asks of the recognizer
    depends on the listening flag alone, and the click leaves that flag
    as it is.  In particular, two clicks with no callback of the
    recognizer between them, on a page that is not listening, ask for a
    start both times, never for a start and then a stop.  Without a
    recognizer the click asks for nothing and shows the notice that
    voice recognition is not supported, for 3000 ms. *)
Theorem toggleVoiceRecognition_calls (w w' : world) (st : state) :
  (recognition st = None ->
     snd (toggleVoiceRecognition w st) = [] /\
     effects (fst (toggleVoiceRecognition w st)) = effects st ++
       [ EShowStatus "Voice recognition not supported in this browser" error;
         ESetTimeout 3000 CbHideStatus ]) /\
  (recognition st <> None ->
     snd (toggleVoiceRecognition w st)
     = (if isListening st then [RecStop]
        else [RecStart (to_string w (getLanguageCode (currentLanguage st)))]) /\
     effects (fst (toggleVoiceRecognition w st)) = effects st) /\
  isListening (fst (toggleVoiceRecognition w st)) = isListening st /\
  (recognition st <> None -> isListening st = false ->
     snd (toggleVoiceRecognition w' (fst (toggleVoiceRecognition w st)))
     = [RecStart (to_string w' (getLanguageCode (currentLanguage st)))]).
Proof.
  unfold toggleVoiceRecognition. destruct (recognition st) as [lang|] eqn:Hr.
  - split; [discriminate|]. split; [|split].
    + intros _. by destruct (isListening st).
    + by destruct (isListening st) eqn:E.
    + intros _ E. rewrite E.
      cbn [fst snd recognition isListening currentLanguage set_controls].
      by rewrite E.
  - split; [|split; [|split]]; try contradiction.
    + intros _. split; [reflexivity|]. cbn. by rewrite <- app_assoc.
    + reflexivity.
Qed.

Lemma toggleVoiceRecognition_sample :
  snd (toggleVoiceRecognition sample_world sample_page) = [RecStart "en-US"] /\
  snd (toggleVoiceRecognition sample_world
         (fst (toggleVoiceRecognition sample_world sample_page))) = [RecStart "en-US"] /\
  snd (toggleVoiceRecognition sample_world sample_listening) = [RecStop].
Proof.
  destruct (toggleVoiceRecognition_calls sample_world sample_world sample_page)
    as (_ & H1 & _ & H2).
  destruct (toggleVoiceRecognition_calls sample_world sample_world sample_listening)
    as (_ & H3 & _).
  split; [|split].
  - destruct H1 as [-> _]; [discriminate|reflexivity].
  - rewrite H2; [reflexivity|discriminate|reflexivity].
  - destruct H3 as [-> _]; [discriminate|reflexivity].
Defined.

(** ** The keyboard *)

(** X8.  The keyboard does what the buttons do and nothing else.  Ctrl
    or Cmd with a lower-case k is a click on the clear button, with a
    lower-case s a click on the export button, and both keep the key
    from the browser; Enter without Shift in the input field is a click
    on the send button.  Every other key, among them Shift + Enter and
    the upper-case K and S, changes nothing and is left to the browser.
    Escape asks the recognizer to stop exactly while the page is
    listening. *)
Theorem keyboard_does_what_buttons_do (w : world) (e : key_event) (st : state) :
  let modifier := ctrlKey e || metaKey e in
  r_state (keydown w e st)
  = (if modifier && String.eqb (key e) "k" then page_step w (Core ClearClicked) st
     else if modifier && String.eqb (key e) "s" then page_step w (Core DownloadClicked) st
     else st) /\
  r_prevented (keydown w e st)
  = modifier && (String.eqb (key e) "k" || String.eqb (key e) "s") /\
  r_calls (keydown w e st)
  = (if String.eqb (key e) "Escape" && isListening st
     then match recognition st with Some _ => [RecStop] | None => [] end
     else []) /\
  keypress w e st
  = (if String.eqb (key e) "Enter" && negb (shiftKey e)
     then {| r_state := page_step w (Core Send) st; r_prevented := true; r_calls := [] |}
     else {| r_state := st; r_prevented := false; r_calls := [] |}).
Proof.
  intros modifier. subst modifier. unfold keydown, keypress.
  cbn [r_state r_prevented r_calls page_step step].
  destruct (ctrlKey e), (metaKey e); cbn [orb andb];
    destruct (String.eqb (key e) "k") eqn:Hk;
    destruct (String.eqb (key e) "s") eqn:Hs; cbn [orb andb];
    try (exfalso; apply String.eqb_eq in Hk; apply String.eqb_eq in Hs; congruence);
    try (apply String.eqb_eq in Hk; rewrite Hk);
    try (apply String.eqb_eq in Hs; rewrite Hs);
    by repeat split.
Qed.

Example keyboard_upper_case_and_shift_enter :
  r_state (keydown sample_world {| key := "K"; ctrlKey := true; metaKey := false;
                                   shiftKey := true |} sample_sent) = sample_sent /\
  keypress sample_world {| key := "Enter"; ctrlKey := false; metaKey := false;
                           shiftKey := true |} (sample_typed "general")
  = {| r_state := sample_typed "general"; r_prevented := false; r_calls := [] |}.
Proof. by split. Qed.

(** ** Start-up *)

(** X9.  The page shows the error text instead of the application
    exactly when the message display or the input field is missing.
    Otherwise the application starts with English, the general category
    and the listening flag off, over the messages of the markup, and has
    a recognizer exactly when the platform offers one.  Its placeholder
    is set, unless the platform offers no recognizer and the voice
    button is missing: hiding the missing button fails, and the
    initialization stops before the placeholder. *)
Theorem DOMContentLoaded_outcome (w : world) (supported : bool) (page : elements)
    (log : list message) (buttons : list bool) :
  (DOMContentLoaded w supported page log buttons = ErrorPage <->
     has_chatMessages page = false \/ has_messageInput page = false) /\
  (forall st, DOMContentLoaded w supported page log buttons = Started st ->
     session st = ("en", "general", false) /\
     chatMessages st = log /\
     pending st = [] /\
     (recognition st = if supported then Some "en-US" else None) /\
     placeholder st = (if supported || has_voiceBtn page then placeholder_en
                       else placeholder (declared log buttons))).
Proof.
  unfold DOMContentLoaded. split.
  - destruct (has_chatMessages page), (has_messageInput page); cbn;
      split; try discriminate; try tauto; intros [H|H]; discriminate.
  - intros st.
    destruct (negb (has_chatMessages page) || negb (has_messageInput page))
      eqn:Hguard; [discriminate|].
    destruct (has_messageInput page) eqn:Hinput;
      [|by rewrite orb_true_r in Hguard].
    intros [= <-]. unfold initializeApp, setupSpeechRecognition. rewrite Hinput.
    destruct supported; [by repeat split|].
    destruct (has_voiceBtn page); by repeat split.
Qed.

Lemma DOMContentLoaded_sample :
  DOMContentLoaded sample_world false
    {| has_chatMessages := true; has_messageInput := true; has_voiceBtn := false |}
    [greeting] [true; false; false; false]
  = Started (declared [greeting] [true; false; false; false]) /\
  DOMContentLoaded sample_world true
    {| has_chatMessages := true; has_messageInput := false; has_voiceBtn := true |}
    [greeting] [true; false; false; false]
  = ErrorPage.
Proof.
  split; [reflexivity|].
  apply (DOMContentLoaded_outcome sample_world true
           {| has_chatMessages := true; has_messageInput := false; has_voiceBtn := true |}).
  by right.
Defined.

(** ** Replies and failures *)

(** A request that succeeds, with a notice on the page when it does. *)
Lemma remote_success_state w1 w2 st k m r n rest :
  pending st !! k = Some (TFetch m) ->
  claimed_success r ->
  statusNodes st = n :: rest ->
  let st2 := run [(w1, FetchSettles k r);
                  (w2, JsonSettles (length (pending st) - 1))] st in
  chatMessages st2 = chatMessages st ++
    [ {| m_class := bot; m_sender := "Bantuan Bot"; m_time := w_time w2;
         m_text := text_content w2 (response_member r) |} ] /\
  pending st2 = delete k (pending st) ++ [TTimer 300 (CbRemoveStatus (s_id n))] /\
  (exists n' rest', statusNodes st2 = n' :: rest') /\
  inputValue st2 = inputValue st.
Proof.
  intros Hk Hyes Hn. cbv zeta. rewrite (run_remote_call _ _ _ _ _ _ Hk).
  destruct (try_block_success w2 r (set_pending (delete k (pending st)) st) Hyes)
    as (response & data & -> & Hb & ->).
  unfold response_member. rewrite Hb.
  cbn [chatMessages pending statusNodes inputValue addMessage emit set_chatMessages].
  rewrite hideStatusMessage_chatMessages, hideStatusMessage_pending.
  unfold hide_timers, hideStatusMessage. cbn [statusNodes set_pending]. rewrite Hn.
  cbn [chatMessages pending statusNodes inputValue setTimeout emit set_pending
       set_status].
  split; [reflexivity|]. split; [reflexivity|]. split; [by eexists _, _|reflexivity].
Qed.

(** X10.  Nothing orders the replies of two sends.  A message is sent, a
    second one is sent while the first request is in flight, and the
    second request is answered first: the display shows the two messages
    of the user, then the reply to the second, then the reply to the
    first. *)
Theorem replies_in_order_of_arrival
    (w1 w2 w3 w4 w5 w6 w7 w8 : world) (st : state) (t1 t2 : string)
    (r1 r2 : fetch_result) :
  let k := length (pending st) in
  trim t1 <> EmptyString -> trim t2 <> EmptyString ->
  claimed_success r1 -> claimed_success r2 ->
  let st' := run [ (w1, Typed t1); (w2, Send); (w3, Typed t2); (w4, Send);
                   (w5, FetchSettles (S k) r2); (w6, JsonSettles (S k));
                   (w7, FetchSettles k r1); (w8, JsonSettles (S k)) ] st in
  let turn cls name w text :=
    {| m_class := cls; m_sender := name; m_time := w_time w; m_text := text |} in
  chatMessages st' = chatMessages st ++
    [ turn user "You" w2 (trim t1);
      turn user "You" w4 (trim t2);
      turn bot "Bantuan Bot" w6 (text_content w6 (response_member r2));
      turn bot "Bantuan Bot" w8 (text_content w8 (response_member r1)) ].
Proof.
  intros k H1 H2 Hr1 Hr2 st' turn. subst st' turn.
  rewrite run_cons, run_cons, run_cons, run_cons, run_two, run_two, run_nil.
  change (step w1 (Typed t1) st) with (set_inputValue t1 st).
  change (step w2 Send) with (handleSendMessage w2).
  change (step w3 (Typed t2)) with (set_inputValue t2).
  change (step w4 Send) with (handleSendMessage w4).
  destruct (handleSendMessage_state w2 (set_inputValue t1 st) H1)
    as (Hlog1 & _ & Hp1 & _).
  cbn [inputValue set_inputValue chatMessages pending] in Hlog1, Hp1.
  set (sa := handleSendMessage w2 (set_inputValue t1 st)) in *.
  destruct (handleSendMessage_state w4 (set_inputValue t2 sa) H2)
    as (Hlog2 & _ & Hp2 & (n & rest & Hs2) & _).
  cbn [inputValue set_inputValue chatMessages pending] in Hlog2, Hp2.
  set (sb := handleSendMessage w4 (set_inputValue t2 sa)) in *.
  assert (pending sb = pending st ++ [TFetch (trim t1); TFetch (trim t2)]) as Hpb.
  { rewrite Hp2, Hp1, <- app_assoc. reflexivity. }
  assert (pending sb !! S k = Some (TFetch (trim t2))) as Hk2.
  { rewrite Hpb.
    change (pending st ++ [TFetch (trim t1); TFetch (trim t2)])
      with (pending st ++ [TFetch (trim t1)] ++ [TFetch (trim t2)]).
    rewrite app_assoc. apply list_lookup_middle. rewrite length_app. simpl. subst k. lia. }
  assert (S k = length (pending sb) - 1) as Hlen2.
  { rewrite Hpb, length_app. simpl. subst k. lia. }
  destruct (remote_success_state w5 w6 sb (S k) (trim t2) r2 n rest Hk2 Hr2 Hs2)
    as (Hlog3 & Hp3 & (n' & rest' & Hs3) & _).
  rewrite <- Hlen2 in Hlog3, Hp3, Hs3.
  set (sc := run [(w5, FetchSettles (S k) r2); (w6, JsonSettles (S k))] sb) in *.
  assert (pending sc = pending st ++
            [TFetch (trim t1); TTimer 300 (CbRemoveStatus (s_id n))]) as Hpc.
  { rewrite Hp3, Hpb.
    change (pending st ++ [TFetch (trim t1); TFetch (trim t2)])
      with (pending st ++ [TFetch (trim t1)] ++ [TFetch (trim t2)]).
    rewrite app_assoc.
    replace (S k) with (length (pending st ++ [TFetch (trim t1)]))
      by (rewrite length_app; simpl; subst k; lia).
    rewrite (delete_middle _ [] (TFetch (trim t2))), app_nil_r, <- app_assoc.
    reflexivity. }
  assert (pending sc !! k = Some (TFetch (trim t1))) as Hk1.
  { rewrite Hpc. by apply list_lookup_middle. }
  assert (S k = length (pending sc) - 1) as Hlen1.
  { rewrite Hpc, length_app. simpl. subst k. lia. }
  destruct (remote_success_state w7 w8 sc k (trim t1) r1 n' rest' Hk1 Hr1 Hs3)
    as (Hlog4 & _).
  rewrite <- Hlen1 in Hlog4.
  rewrite Hlog4, Hlog3, Hlog2, Hlog1, <- !app_assoc. reflexivity.
Qed.

Lemma replies_in_order_of_arrival_sample :
  map m_text
    (chatMessages
       (run [ (sample_world, Typed "first"); (sample_world, Send);
              (sample_world, Typed "second"); (sample_world, Send);
              (sample_world, FetchSettles 1 sample_reply); (sample_world, JsonSettles 1);
              (sample_world, FetchSettles 0 sample_reply); (sample_world, JsonSettles 1) ]
            (declared [] [])))
  = ["first"; "second"; "Use the reset link."; "Use the reset link."].
Proof.
  assert (claimed_success sample_reply) as C.
  { eexists _, _. split; [reflexivity|]. split; [simpl; lia|]. split; reflexivity. }
  assert (trim "first" <> EmptyString) as H1 by (vm_compute; discriminate).
  assert (trim "second" <> EmptyString) as H2 by (vm_compute; discriminate).
  pose proof (replies_in_order_of_arrival sample_world sample_world sample_world
                sample_world sample_world sample_world sample_world sample_world
                (declared [] []) "first" "second" sample_reply sample_reply
                H1 H2 C C) as H.
  change (length (pending (declared [] []))) with 0 in H.
  rewrite H. reflexivity.
Defined.

(** X11.  A reply with an HTTP status outside 200..299 is reported by
    its status line, and its body is never read: whatever the body
    holds, even the status success, the notice reads Error: API error:
    followed by the status and its text, nothing is appended, and the
    timer of the fallback is set in the same turn of the event loop. *)
Theorem http_error_skips_body (w : world) (st : state) (k : nat) (m : string)
    (response : response) :
  pending st !! k = Some (TFetch m) ->
  ok response = false ->
  let st' := step w (FetchSettles k (Fulfilled response)) st in
  last (statusNodes st') =
    Some {| s_id := nextId st;
            s_text := "Error: API error: " +:+ decimal (status response) +:+ " "
                      +:+ statusText response;
            s_background := "var(--error)"; s_leaving := false |} /\
  chatMessages st' = chatMessages st /\
  pending st' = delete k (pending st) ++ hide_timers st
                ++ [TTimer 1000 (CbFallback m)] /\
  (forall b, step w (FetchSettles k
                       (Fulfilled {| status := status response;
                                     statusText := statusText response;
                                     r_body := b |})) st = st').
Proof.
  intros Hk Hok st'. subst st'. cbn [step]. rewrite (take_Some _ _ _ Hk).
  unfold resume_fetch, try_fetch. rewrite Hok. cbn [negb].
  split; [|split; [|split]].
  - unfold catch_block.
    cbn [statusNodes setTimeout emit set_pending showStatusMessage set_status].
    rewrite last_snoc. f_equal. f_equal. unfold hideStatusMessage.
    cbn [statusNodes set_pending]. by destruct (statusNodes st).
  - by rewrite catch_block_chatMessages.
  - by rewrite catch_block_pending.
  - intros b. unfold ok in *. cbn [status statusText]. rewrite Hok. reflexivity.
Qed.

Lemma http_error_skips_body_sample :
  map s_text (statusNodes (step sample_world
                             (FetchSettles 0 (Fulfilled
                                {| status := 500; statusText := "Internal Server Error";
                                   r_body := Parsed (JObject [("status", SStr "success");
                                                              ("response", SStr "hi")]) |}))
                             sample_sent))
  = ["Error: API error: 500 Internal Server Error"].
Proof.
  destruct (http_error_skips_body sample_world sample_sent 0 "reset my password"
              {| status := 500; statusText := "Internal Server Error";
                 r_body := Parsed (JObject [("status", SStr "success");
                                            ("response", SStr "hi")]) |}
              eq_refl eq_refl) as (_ & _ & _ & H).
  rewrite <- (H (Parsed (JObject [("status", SStr "success"); ("response", SStr "hi")]))).
  reflexivity.
Defined.

(** X12.  A reply that was read as a JSON object and does not carry the
    status success is reported by its error member when that member is
    truthy, and by the text Unknown error from API when the member is
    missing, null, false, 0 or the empty string.  Nothing is appended
    and the timer of the fallback is set. *)
Theorem refusal_notice (w : world) (st : state) (k : nat) (m : string)
    (members : list (string * scalar)) :
  pending st !! k = Some (TJson m (Parsed (JObject members))) ->
  member (JObject members) "status" <> VStr "success" ->
  let st' := step w (JsonSettles k) st in
  let reason :=
    match own members "error" with
    | Some (SStr s) => if String.eqb s EmptyString then "Unknown error from API" else s
    | Some (SNum t) =>
        if String.eqb t "0" || String.eqb t "NaN" then "Unknown error from API" else t
    | Some (SBool true) => "true"
    | Some (SBool false) | Some SNull | None => "Unknown error from API"
    end in
  last (statusNodes st') =
    Some {| s_id := nextId st; s_text := "Error: " +:+ reason;
            s_background := "var(--error)"; s_leaving := false |} /\
  chatMessages st' = chatMessages st /\
  last (pending st') = Some (TTimer 1000 (CbFallback m)).
Proof.
  intros Hk Hstatus st' reason. subst st'. cbn [step]. rewrite (take_Some _ _ _ Hk).
  unfold resume_json, try_json.
  destruct (is_string (member (JObject members) "status") "success") eqn:Hs.
  { apply is_string_true in Hs. contradiction. }
  assert (to_string w (or_else (member (JObject members) "error")
                               (VStr "Unknown error from API")) = reason) as ->.
  { subst reason. unfold member, get. change (inherited "error") with false.
    destruct (own members "error") as [[|[]|t|s]|];
      unfold or_else, truthy; cbn [of_scalar]; try reflexivity.
    - destruct (String.eqb t "0"); [reflexivity|].
      by destruct (String.eqb t "NaN").
    - by destruct (String.eqb s EmptyString). }
  split; [|split].
  - unfold catch_block.
    cbn [statusNodes setTimeout emit set_pending showStatusMessage set_status].
    rewrite last_snoc. f_equal. f_equal. unfold hideStatusMessage.
    cbn [statusNodes set_pending]. by destruct (statusNodes st).
  - by rewrite catch_block_chatMessages.
  - rewrite catch_block_pending, !app_assoc. apply last_snoc.
Qed.

Lemma refusal_notice_sample :
  map s_text
    (statusNodes
       (step sample_world (JsonSettles 0)
          (step sample_world
             (FetchSettles 0
                (Fulfilled {| status := 200; statusText := "OK";
                              r_body := Parsed (JObject [("status", SStr "error");
                                                         ("error", SStr EmptyString)]) |}))
             sample_sent)))
  = ["Error: Unknown error from API"].
Proof.
  set (st := step sample_world (FetchSettles 0 _) sample_sent).
  destruct (refusal_notice sample_world st 0 "reset my password"
              [("status", SStr "error"); ("error", SStr EmptyString)] eq_refl)
    as (_ & Hlog & _); [discriminate|].
  reflexivity.
Defined.

(** ** No retry *)









(** ** What is sent is trimmed *)

Section StripMore.
Variable p1 : ascii -> bool.
Variable p2 : ascii -> ascii -> bool.
Variable p3 : ascii -> ascii -> ascii -> bool.

Lemma strip_suffix l : exists removed, l = removed ++ strip p1 p2 p3 l.
Proof.
  remember (length l) as n eqn:Hn. revert l Hn.
  induction n as [n IH] using lt_wf_ind. intros l Hn.
  destruct l as [|a t1]; [by exists []|].
  rewrite strip_cons. destruct (p1 a).
  { destruct (IH (length t1)) with (l := t1) as [pre Hpre]; [simpl in *; lia|done|].
    exists (a :: pre). simpl. by rewrite <- Hpre. }
  destruct t1 as [|b t2]; [by exists []|].
  destruct (p2 a b).
  { destruct (IH (length t2)) with (l := t2) as [pre Hpre]; [simpl in *; lia|done|].
    exists (a :: b :: pre). simpl. by rewrite <- Hpre. }
  destruct t2 as [|c t3]; [by exists []|].
  destruct (p3 a b c); [|by exists []].
  destruct (IH (length t3)) with (l := t3) as [pre Hpre]; [simpl in *; lia|done|].
  exists (a :: b :: c :: pre). simpl. by rewrite <- Hpre.
Qed.

Lemma strip_length l : length (strip p1 p2 p3 l) <= length l.
Proof.
  destruct (strip_suffix l) as [pre Hpre]. rewrite Hpre at 2. rewrite length_app. lia.
Qed.

(** A string that the scan leaves alone has no code point at its start,
    and neither has any string it starts with. *)
Lemma strip_fixed_prefix l u v :
  strip p1 p2 p3 l = l -> l = u ++ v -> strip p1 p2 p3 u = u.
Proof.
  intros Hfix ->. destruct u as [|a u1]; [reflexivity|].
  cbn [app] in Hfix. rewrite strip_cons in Hfix. rewrite strip_cons.
  destruct (p1 a).
  { pose proof (strip_length (u1 ++ v)) as Hlen. rewrite Hfix in Hlen.
    cbn [length] in Hlen. lia. }
  destruct u1 as [|b u2]; [reflexivity|]. cbn [app] in Hfix.
  destruct (p2 a b).
  { pose proof (strip_length (u2 ++ v)) as Hlen. rewrite Hfix in Hlen.
    cbn [length] in Hlen. lia. }
  destruct u2 as [|c u3]; [reflexivity|]. cbn [app] in Hfix.
  destruct (p3 a b c); [|reflexivity].
  pose proof (strip_length (u3 ++ v)) as Hlen. rewrite Hfix in Hlen.
  cbn [length] in Hlen. lia.
Qed.
(** A string that begins with a code point the scan accepts is not left
    alone by it. *)
Lemma strip_drops1 a t :
  p1 a = true -> strip p1 p2 p3 (a :: t) = a :: t -> False.
Proof.
  intros Ha E. rewrite strip_cons, Ha in E.
  pose proof (strip_length t) as Hlen. rewrite E in Hlen. cbn [length] in Hlen. lia.
Qed.

Lemma strip_drops2 a b t :
  p2 a b = true -> strip p1 p2 p3 (a :: b :: t) = a :: b :: t -> False.
Proof.
  intros Hab E. rewrite strip_cons, Hab in E. destruct (p1 a).
  - pose proof (strip_length (b :: t)) as Hlen. rewrite E in Hlen.
    cbn [length] in Hlen. lia.
  - pose proof (strip_length t) as Hlen. rewrite E in Hlen. cbn [length] in Hlen. lia.
Qed.

Lemma strip_drops3 a b c t :
  p3 a b c = true -> strip p1 p2 p3 (a :: b :: c :: t) = a :: b :: c :: t -> False.
Proof.
  intros Habc E. rewrite strip_cons, Habc in E. destruct (p1 a).
  { pose proof (strip_length (b :: c :: t)) as Hlen. rewrite E in Hlen.
    cbn [length] in Hlen. lia. }
  destruct (p2 a b).
  - pose proof (strip_length (c :: t)) as Hlen. rewrite E in Hlen.
    cbn [length] in Hlen. lia.
  - pose proof (strip_length t) as Hlen. rewrite E in Hlen. cbn [length] in Hlen. lia.
Qed.
End StripMore.

Lemma trim_bytes_fixed l :
  let u := trimEnd_bytes (trimStart_bytes l) in
  trimStart_bytes u = u /\ trimEnd_bytes u = u.
Proof.
  intros u. subst u. unfold trimEnd_bytes, trimStart_bytes.
  set (t := strip ws1 ws2 ws3 l).
  set (q1 := fun a b => ws2 b a). set (q2 := fun a b c => ws3 c b a).
  split.
  - destruct (strip_suffix ws1 q1 q2 (rev t)) as [pre Hpre].
    apply (strip_fixed_prefix ws1 ws2 ws3 t _ (rev pre)).
    + apply strip_strip.
    + rewrite <- rev_app_distr, <- Hpre. by rewrite rev_involutive.
  - rewrite rev_involutive, strip_strip. reflexivity.
Qed.

Lemma trim_trim s : trim (trim s) = trim s.
Proof.
  unfold trim. rewrite list_ascii_of_string_of_list_ascii.
  destruct (trim_bytes_fixed (list_ascii_of_string s)) as [H1 H2].
  by rewrite H1, H2.
Qed.

Lemma list_ascii_of_string_app (a b : string) :
  list_ascii_of_string (a +:+ b) = list_ascii_of_string a ++ list_ascii_of_string b.
Proof.
  induction a as [|x a IH]; [reflexivity|]. rewrite append_cons. simpl. by rewrite IH.
Qed.

Lemma list_ascii_of_utf8 bytes :
  list_ascii_of_string (utf8 bytes) = map ascii_of_N bytes.
Proof. apply list_ascii_of_string_of_list_ascii. Qed.

(** The trimmed text begins with no white space code point and ends with
    none. *)
Lemma trim_ends s c rest :
  In c white_space -> trim s <> c +:+ rest /\ trim s <> rest +:+ c.
Proof.
  intros Hin.
  destruct (trim_bytes_fixed (list_ascii_of_string s)) as [Hstart Hend].
  set (u := trimEnd_bytes (trimStart_bytes (list_ascii_of_string s))) in *.
  assert (list_ascii_of_string (trim s) = u) as Hu
    by apply list_ascii_of_string_of_list_ascii.
  unfold trimStart_bytes in Hstart.
  assert (strip ws1 (fun a b => ws2 b a) (fun a b c => ws3 c b a) (rev u) = rev u)
    as Hback.
  { unfold trimEnd_bytes in Hend. rewrite <- Hend at 2. by rewrite rev_involutive. }
  clearbody u. clear Hend.
  unfold white_space in Hin. cbn [map In] in Hin.
  split; intros E; apply (f_equal list_ascii_of_string) in E;
    rewrite Hu, list_ascii_of_string_app in E.
  - rewrite E in Hstart. clear - Hin Hstart.
    repeat (destruct Hin as [Hc|Hin];
            [subst c; rewrite list_ascii_of_utf8 in Hstart; cbn [map app] in Hstart;
             revert Hstart;
             first [ solve [apply strip_drops1; reflexivity]
                   | solve [apply strip_drops2; reflexivity]
                   | solve [apply strip_drops3; reflexivity] ]|]).
    destruct Hin.
  - rewrite E, rev_app_distr in Hback. clear - Hin Hback.
    repeat (destruct Hin as [Hc|Hin];
            [subst c; rewrite list_ascii_of_utf8 in Hback; cbn [map rev app] in Hback;
             revert Hback;
             first [ solve [apply strip_drops1; reflexivity]
                   | solve [apply strip_drops2; reflexivity]
                   | solve [apply strip_drops3; reflexivity] ]|]).
    destruct Hin.
Qed.

(** X14.  What a send shows and posts is the input without the white
    space around it.  The text of the user's turn and the message of the
    request are the trimmed input; that text begins with none of the
    white space and line terminator code points and ends with none; and
    the send of a padded input leaves the page in the state in which the
    send of the bare text leaves it. *)
Theorem sent_text_is_trimmed (w : world) (st : state) :
  trim (inputValue st) <> EmptyString ->
  let m := trim (inputValue st) in
  let st' := handleSendMessage w st in
  last (effects st') =
    Some (EFetch (getApiEndpoint w +:+ "/api/chat")
            {| rq_message := m; rq_language := currentLanguage st;
               rq_category := currentCategory st |}) /\
  last (chatMessages st') =
    Some {| m_class := user; m_sender := "You"; m_time := w_time w; m_text := m |} /\
  (forall c rest, In c white_space -> m <> c +:+ rest /\ m <> rest +:+ c) /\
  handleSendMessage w (set_inputValue m st) = st'.
Proof.
  intros Hm m st'. subst m st'.
  destruct (handleSendMessage_state w st Hm) as (Hlog & Heff & _).
  split; [|split; [|split]].
  - rewrite Heff.
    change [?a; ?b; ?c] with ([a; b] ++ [c]). by rewrite app_assoc, last_snoc.
  - by rewrite Hlog, last_snoc.
  - intros c rest. apply trim_ends.
  - unfold handleSendMessage. cbn [inputValue set_inputValue]. rewrite trim_trim.
    apply String.eqb_neq in Hm. rewrite Hm. reflexivity.
Qed.

Lemma sent_text_is_trimmed_sample :
  inputValue (sample_typed "general") = "  reset my password " /\
  last (effects (handleSendMessage sample_world (sample_typed "general"))) =
    Some (EFetch "https://support.example.com/api/chat"
            {| rq_message := "reset my password"; rq_language := "en";
               rq_category := "general" |}) /\
  map m_text (chatMessages (handleSendMessage sample_world (sample_typed "general")))
  = map m_text (chatMessages (sample_typed "general")) ++ ["reset my password"].
Proof.
  assert (trim (inputValue (sample_typed "general")) <> EmptyString) as Hm
    by (vm_compute; discriminate).
  destruct (sent_text_is_trimmed sample_world (sample_typed "general") Hm)
    as (Heff & _ & _ & _).
  split; [reflexivity|]. split; [exact Heff|]. reflexivity.
Defined.

(** ** Host names that contain the static-hosting domain *)

Lemma prefix_app (a b : string) : String.prefix a (a +:+ b) = true.
Proof.
  induction a as [|x a IH]; [by destruct b|].
  rewrite append_cons. simpl. destruct (ascii_dec x x); [exact IH|contradiction].
Qed.

Lemma includes_app (pre needle post : string) :
  includes (pre +:+ needle +:+ post) needle = true.
Proof.
  induction pre as [|x pre IH].
  - change (EmptyString +:+ needle +:+ post) with (needle +:+ post).
    pose proof (prefix_app needle post) as Hp.
    destruct (needle +:+ post); cbn [includes]; by rewrite Hp.
  - rewrite append_cons. cbn [includes]. rewrite IH. apply orb_true_r.
Qed.

(** X15.  The test for the static-hosting domain looks for its name
    anywhere in the host name.  Every page loaded over the network from a
    host whose name contains azurestaticapps.net, at its end or not, is
    given the fixed backend base, whatever override is stored. *)
Theorem getApiEndpoint_domain_anywhere (w : world) (pre post : string) :
  protocol (w_location w) <> "file:" ->
  hostname (w_location w) = pre +:+ "azurestaticapps.net" +:+ post ->
  getApiEndpoint w = azure_backend.
Proof.
  intros Hp Hh. unfold getApiEndpoint. apply String.eqb_neq in Hp. rewrite Hp.
  assert (includes (hostname (w_location w)) "azurestaticapps.net" = true) as Hin
    by (rewrite Hh; apply includes_app).
  destruct (String.eqb_spec (hostname (w_location w)) "localhost") as [E|_].
  { rewrite E in Hin. discriminate. }
  destruct (String.eqb_spec (hostname (w_location w)) "127.0.0.1") as [E|_].
  { rewrite E in Hin. discriminate. }
  cbn [orb]. by rewrite Hin.
Qed.

Lemma getApiEndpoint_domain_anywhere_sample :
  getApiEndpoint
    {| w_location := {| protocol := "https:";
                        hostname := "azurestaticapps.net.example.org";
                        port := EmptyString |};
       w_backendUrl := Some "https://staging.example.org";
       w_confirm := true; w_time := EmptyString; w_datetime := EmptyString;
       w_iso := EmptyString; w_random := 0; w_native := fun key => key;
       w_null_read := EmptyString |}
  = azure_backend.
Proof.
  apply (getApiEndpoint_domain_anywhere _ EmptyString ".example.org");
    [discriminate|reflexivity].
Defined.


(** ** The fallback reply quotes the message *)

(** X16.  For a category that names no member inherited from
    Object.prototype and a random number in [0, 1), the fallback reply is
    a text that contains the user's message between double quotes, as it
    was given: nothing of it is escaped, shortened or dropped. *)
Theorem generateBotResponse_quotes_message (w : world) (m : string) (st : state) :
  inherited (currentCategory st) = false ->
  (0 <= w_random w < 1)%Q ->
  exists t, generateBotResponse w m st = VStr t /\ includes t (quoted m) = true.
Proof.
  intros Hc Hr. destruct (generateBotResponse_template w m st Hc Hr) as (t & Ht & Hin).
  exists t. split; [exact Ht|]. clear Ht. unfold spec_templates in Hin.
  destruct (String.eqb (currentCategory st) "technical");
    [|destruct (String.eqb (currentCategory st) "account");
      [|destruct (String.eqb (currentCategory st) "billing")]];
    unfold technical_responses, account_responses, billing_responses,
      general_responses in Hin;
    cbn [In] in Hin;
    destruct Hin as [<-|[<-|[<-|[]]]]; apply includes_app.
Qed.

Lemma generateBotResponse_quotes_message_sample :
  exists t,
    generateBotResponse sample_world "<b>refund</b> & more" (sample_typed "billing")
    = VStr t /\
    includes t (quoted "<b>refund</b> & more") = true.
Proof.
  apply (generateBotResponse_quotes_message sample_world _ (sample_typed "billing"));
    [reflexivity|exact sample_random_in_range].
Defined.
